(** * User accounts: entity validators and the account service

    A shallow embedding of [app/models/user_model.py] (the [User] entity and
    its [@validates] hooks) and of [app/services/user_service.py] (the
    [UserService] class methods), together with the properties the
    specification states about them.

    Collaborators that live outside the two modules (the credential hasher,
    the settings object, the [UserCreate] schema, the nickname, token and
    uuid generators, and the Unicode tables of the Python runtime) are
    fields of an [Env] record: every theorem holds for any implementation of
    them.  The store is a table of rows with its primary-key and unique
    constraints; calls to the logger have no effect on what the operations
    return or store and are not modelled. *)

From Stdlib Require Import ZArith NArith List Bool String Ascii Lia.
Import ListNotations.

Local Open Scope Z_scope.

(** ** Python strings *)

(** A Python [str] is a sequence of Unicode code points. *)
Definition pystr := list N.

(** ASCII literals of the source, as code points. *)
Definition str (s : string) : pystr :=
  map N_of_ascii (list_ascii_of_string s).

Definition len (v : pystr) : Z := Z.of_nat (List.length v).

Definition pystr_eqb (a b : pystr) : bool :=
  if list_eq_dec N.eq_dec a b then true else false.

(** The character classes of the Unicode database outside ASCII, as the
    Python runtime answers them for a one-character string. *)
Record UCD := {
  ucd_isupper : N -> bool;
  ucd_islower : N -> bool;
  ucd_isdigit : N -> bool;
  ucd_isalnum : N -> bool
}.

Definition between (lo hi c : N) : bool := ((lo <=? c) && (c <=? hi))%N.

Definition is_ascii (c : N) : bool := (c <? 128)%N.

Definition ascii_upper (c : N) : bool := between 65 90 c.
Definition ascii_lower (c : N) : bool := between 97 122 c.
Definition ascii_digit (c : N) : bool := between 48 57 c.
Definition ascii_alnum (c : N) : bool :=
  ascii_upper c || ascii_lower c || ascii_digit c.

(** The Latin-1 supplement rows (U+0080 .. U+00FF) of the database; code
    points above U+00FF are outside this table.  It serves the concrete
    evaluations below. *)
Definition ucd_latin1 : UCD := {|
  ucd_isupper := fun c => between 192 214 c || between 216 222 c;
  ucd_islower := fun c =>
    N.eqb c 170 || N.eqb c 181 || N.eqb c 186
    || between 223 246 c || between 248 255 c;
  ucd_isdigit := fun c => N.eqb c 178 || N.eqb c 179 || N.eqb c 185;
  ucd_isalnum := fun c =>
    N.eqb c 170 || N.eqb c 181 || N.eqb c 186
    || between 192 214 c || between 216 246 c || between 248 255 c
    || N.eqb c 178 || N.eqb c 179 || N.eqb c 185 || between 188 190 c
|}.

Section Chars.
Variable ucd : UCD.

(** [char.isupper()], [char.islower()], [char.isdigit()] on one character. *)
Definition isupper (c : N) : bool :=
  if is_ascii c then ascii_upper c else ucd_isupper ucd c.
Definition islower (c : N) : bool :=
  if is_ascii c then ascii_lower c else ucd_islower ucd c.
Definition isdigit (c : N) : bool :=
  if is_ascii c then ascii_digit c else ucd_isdigit ucd c.
Definition isalnum_char (c : N) : bool :=
  if is_ascii c then ascii_alnum c else ucd_isalnum ucd c.

(** [value.isalnum()]: every character is alphanumeric and there is at
    least one character. *)
Definition isalnum (v : pystr) : bool :=
  match v with
  | [] => false
  | _ => forallb isalnum_char v
  end.

(** [any(p(char) for char in value)] *)
Definition any (p : N -> bool) (v : pystr) : bool := existsb p v.

(** [char in "!@#$%^&*()_+-="] *)
Definition special_characters : pystr := str "!@#$%^&*()_+-=".
Definition is_special (c : N) : bool :=
  existsb (N.eqb c) special_characters.
End Chars.

(** ** Exceptions and results *)

Inductive exn :=
| ValueError (msg : string)
| ValidationError
| SQLAlchemyError
| OSError (msg : string).

Inductive result (A : Type) :=
| Ok (a : A)
| Raise (e : exn).
Arguments Ok {A} a.
Arguments Raise {A} e.

(** ** The entity validators *)

Section Validators.
Variable ucd : UCD.

Definition msg_nickname_chars : string :=
  "Nickname must contain only alphanumeric characters.".
Definition msg_nickname_length : string :=
  "Nickname must be between 3 and 50 characters long.".
Definition msg_password_length : string :=
  "Password must be at least 8 characters long.".
Definition msg_password_upper : string :=
  "Password must contain at least one uppercase letter.".
Definition msg_password_lower : string :=
  "Password must contain at least one lowercase letter.".
Definition msg_password_digit : string :=
  "Password must contain at least one digit.".
Definition msg_password_special : string :=
  "Password must contain at least one special character.".

(** [User.validate_nickname] *)
Definition validate_nickname (value : pystr) : result pystr :=
  if negb (isalnum ucd value) then
    Raise (ValueError msg_nickname_chars)
  else if (len value <? 3) || (len value >? 50) then
    Raise (ValueError msg_nickname_length)
  else Ok value.

(** [User.validate_password], hooked on the [hashed_password] attribute. *)
Definition validate_password (value : pystr) : result pystr :=
  if len value <? 8 then
    Raise (ValueError msg_password_length)
  else if negb (any (isupper ucd) value) then
    Raise (ValueError msg_password_upper)
  else if negb (any (islower ucd) value) then
    Raise (ValueError msg_password_lower)
  else if negb (any (isdigit ucd) value) then
    Raise (ValueError msg_password_digit)
  else if negb (any is_special value) then
    Raise (ValueError msg_password_special)
  else Ok value.
End Validators.

(** ** The [User] entity *)

Definition UUID := N.

Inductive UserRole := ANONYMOUS | AUTHENTICATED | MANAGER | ADMIN.

(** The value of a [DateTime] attribute: NULL, a point in time, or the SQL
    expression [func.now()], which the store evaluates when the owning
    statement is flushed. *)
Inductive datetime :=
| SqlNull
| SqlTime (t : Z)
| SqlFuncNow.

(** The columns the modelled operations read or write.  The profile columns
    (names, bio, URLs) and the server-side [created_at]/[updated_at] stamps
    are never touched by them and are left out. *)
Record User := mkUser {
  id : UUID;
  nickname : pystr;
  email : pystr;
  role : UserRole;
  is_professional : bool;
  professional_status_updated_at : datetime;
  last_login_at : datetime;
  failed_login_attempts : Z;
  is_locked : bool;
  verification_token : option pystr;
  email_verified : bool;
  hashed_password : pystr
}.

Definition set_nickname (v : pystr) (u : User) : User :=
  mkUser (id u) v (email u) (role u) (is_professional u)
    (professional_status_updated_at u) (last_login_at u)
    (failed_login_attempts u) (is_locked u) (verification_token u)
    (email_verified u) (hashed_password u).

Definition set_is_professional (v : bool) (u : User) : User :=
  mkUser (id u) (nickname u) (email u) (role u) v
    (professional_status_updated_at u) (last_login_at u)
    (failed_login_attempts u) (is_locked u) (verification_token u)
    (email_verified u) (hashed_password u).

Definition set_professional_status_updated_at (v : datetime) (u : User)
  : User :=
  mkUser (id u) (nickname u) (email u) (role u) (is_professional u)
    v (last_login_at u)
    (failed_login_attempts u) (is_locked u) (verification_token u)
    (email_verified u) (hashed_password u).

Definition set_last_login_at (v : datetime) (u : User) : User :=
  mkUser (id u) (nickname u) (email u) (role u) (is_professional u)
    (professional_status_updated_at u) v
    (failed_login_attempts u) (is_locked u) (verification_token u)
    (email_verified u) (hashed_password u).

Definition set_failed_login_attempts (v : Z) (u : User) : User :=
  mkUser (id u) (nickname u) (email u) (role u) (is_professional u)
    (professional_status_updated_at u) (last_login_at u)
    v (is_locked u) (verification_token u)
    (email_verified u) (hashed_password u).

Definition set_is_locked (v : bool) (u : User) : User :=
  mkUser (id u) (nickname u) (email u) (role u) (is_professional u)
    (professional_status_updated_at u) (last_login_at u)
    (failed_login_attempts u) v (verification_token u)
    (email_verified u) (hashed_password u).

Definition set_verification_token (v : option pystr) (u : User) : User :=
  mkUser (id u) (nickname u) (email u) (role u) (is_professional u)
    (professional_status_updated_at u) (last_login_at u)
    (failed_login_attempts u) (is_locked u) v
    (email_verified u) (hashed_password u).

Definition set_email_verified (v : bool) (u : User) : User :=
  mkUser (id u) (nickname u) (email u) (role u) (is_professional u)
    (professional_status_updated_at u) (last_login_at u)
    (failed_login_attempts u) (is_locked u) (verification_token u)
    v (hashed_password u).

Definition set_hashed_password (v : pystr) (u : User) : User :=
  mkUser (id u) (nickname u) (email u) (role u) (is_professional u)
    (professional_status_updated_at u) (last_login_at u)
    (failed_login_attempts u) (is_locked u) (verification_token u)
    (email_verified u) v.

Definition UserRole_eqb (a b : UserRole) : bool :=
  match a, b with
  | ANONYMOUS, ANONYMOUS | AUTHENTICATED, AUTHENTICATED
  | MANAGER, MANAGER | ADMIN, ADMIN => true
  | _, _ => false
  end.

(** [User.lock_account], [User.unlock_account], [User.verify_email],
    [User.has_role] *)
Definition lock_account (self : User) : User := set_is_locked true self.
Definition unlock_account (self : User) : User := set_is_locked false self.
Definition verify_email (self : User) : User := set_email_verified true self.
Definition has_role (self : User) (role_name : UserRole) : bool :=
  UserRole_eqb (role self) role_name.

(** [User.update_professional_status]: the second assignment stores the
    expression [func.now()], not a clock reading. *)
Definition update_professional_status (self : User) (status : bool) : User :=
  let self := set_is_professional status self in
  set_professional_status_updated_at SqlFuncNow self.

(** The primary key of an object that no session has seen yet. *)
Definition transient_id : UUID := 0%N.

Definition bind_result {A B} (r : result A) (k : A -> result B) : result B :=
  match r with
  | Ok a => k a
  | Raise e => Raise e
  end.

Section Entity.
Variable ucd : UCD.

(** [user.hashed_password = value]: the [@validates('hashed_password')]
    hook runs first and its return value is stored. *)
Definition assign_hashed_password (self : User) (value : pystr) : result User :=
  bind_result (validate_password ucd value)
    (fun v => Ok (set_hashed_password v self)).

(** [user.nickname = value] under [@validates('nickname')]. *)
Definition assign_nickname (self : User) (value : pystr) : result User :=
  bind_result (validate_nickname ucd value)
    (fun v => Ok (set_nickname v self)).

(** The [User] constructor on the keyword arguments [email], [nickname],
    [hashed_password], in that dictionary order ([nickname] is a field of
    the dumped schema, [hashed_password] is inserted after the dump);
    every other column takes its declared default.  The primary key is
    [transient_id] until the object is added to a session. *)
Definition User_init (email_ nickname_ hashed_password_ : pystr)
  : result User :=
  let blank :=
    mkUser transient_id [] email_ ANONYMOUS false SqlNull SqlNull 0 false None
      false [] in
  bind_result (assign_nickname blank nickname_)
    (fun self => assign_hashed_password self hashed_password_).
End Entity.

(** ** The storage session *)

(** What [session.add] and [session.delete] stage until the next flush:
    an INSERT of a new object, an UPDATE of a loaded one, a DELETE. *)
Inductive pending_op :=
| PInsert (u : User)
| PUpdate (u : User)
| PDelete (u : User).

(** [rows] is the [users] table in insertion order, [pending] the staged
    statements, [writes] the number of INSERT/UPDATE/DELETE statements the
    store has executed. *)
Record Session := mkSession {
  rows : list User;
  pending : list pending_op;
  writes : nat
}.

Definition eval_datetime (db_now : Z) (d : datetime) : datetime :=
  match d with
  | SqlFuncNow => SqlTime db_now
  | _ => d
  end.

(** The row a statement writes: SQL expressions are evaluated by the store. *)
Definition resolve (db_now : Z) (u : User) : User :=
  set_last_login_at (eval_datetime db_now (last_login_at u))
    (set_professional_status_updated_at
       (eval_datetime db_now (professional_status_updated_at u)) u).

(** The primary key and the two [unique=True] columns. *)
Definition violates_unique (u : User) (table : list User) : bool :=
  existsb (fun r => N.eqb (id r) (id u)
                    || pystr_eqb (nickname r) (nickname u)
                    || pystr_eqb (email r) (email u)) table.

(** [UPDATE users SET ... WHERE id = u.id] and
    [DELETE FROM users WHERE id = u.id].  The values written are ones their
    columns hold; the store refusing a text too long for its [String(n)]
    column or a number outside [Integer] is not modelled here. *)
Definition update_row (u : User) (table : list User) : list User :=
  map (fun r => if N.eqb (id r) (id u) then u else r) table.

Definition delete_row (u : User) (table : list User) : list User :=
  filter (fun r => negb (N.eqb (id r) (id u))) table.

Definition flush_op (db_now : Z) (op : pending_op) (table : list User)
  : result (list User) :=
  match op with
  | PInsert u =>
      if violates_unique u table then Raise SQLAlchemyError
      else Ok (table ++ [resolve db_now u])
  | PUpdate u => Ok (update_row (resolve db_now u) table)
  | PDelete u => Ok (delete_row u table)
  end.

Fixpoint flush_ops (db_now : Z) (ops : list pending_op) (table : list User)
  (n : nat) : result (list User * nat) :=
  match ops with
  | [] => Ok (table, n)
  | op :: ops =>
      bind_result (flush_op db_now op table)
        (fun table => flush_ops db_now ops table (S n))
  end.

(** ** The world the service runs in *)

(** The session, the clock, how many values each generator has handed out,
    and the verification emails sent so far. *)
Record World := mkWorld {
  session : Session;
  clock : Z;
  nickname_calls : nat;
  token_calls : nat;
  uuid_calls : nat;
  outbox : list User
}.

Definition set_session (s : Session) (w : World) : World :=
  mkWorld s (clock w) (nickname_calls w) (token_calls w) (uuid_calls w)
    (outbox w).

(** A computation ends with a value or an exception in a new world, or is
    still inside the nickname loop when the fuel is spent. *)
Inductive outcome (A : Type) :=
| Done (r : result A) (w : World)
| OutOfFuel.
Arguments Done {A} r w.
Arguments OutOfFuel {A}.

Definition M (A : Type) := World -> outcome A.

Definition ret {A} (a : A) : M A := fun w => Done (Ok a) w.
Definition raise {A} (e : exn) : M A := fun w => Done (Raise e) w.
Definition lift {A} (r : result A) : M A := fun w => Done r w.

Definition bind {A B} (m : M A) (k : A -> M B) : M B :=
  fun w =>
    match m w with
    | Done (Ok a) w' => k a w'
    | Done (Raise e) w' => Done (Raise e) w'
    | OutOfFuel => OutOfFuel
    end.

(** [try: m  except ... as e: handler e] *)
Definition try_except {A} (m : M A) (handler : exn -> M A) : M A :=
  fun w =>
    match m w with
    | Done (Raise e) w' => handler e w'
    | o => o
    end.

Notation "x <- m ;; k" := (bind m (fun x => k))
  (at level 61, m at next level, right associativity).
Notation "m ;; k" := (bind m (fun _ => k))
  (at level 61, right associativity).

(** [session.add] of a loaded object, [session.delete]. *)
Definition stage (op : pending_op) : M unit :=
  fun w =>
    let s := session w in
    Done (Ok tt)
      (set_session (mkSession (rows s) (pending s ++ [op]) (writes s)) w).

Definition session_add (u : User) : M unit := stage (PUpdate u).
Definition session_delete (u : User) : M unit := stage (PDelete u).

(** Flushing executes the staged statements in order.  A constraint
    violation aborts the transaction: the table is as before and the staged
    statements are gone. *)
Definition session_flush : M unit :=
  fun w =>
    let s := session w in
    match flush_ops (clock w) (pending s) (rows s) (writes s) with
    | Ok (table, n) => Done (Ok tt) (set_session (mkSession table [] n) w)
    | Raise e =>
        Done (Raise e) (set_session (mkSession (rows s) [] (writes s)) w)
    end.

Definition session_commit : M unit := session_flush.

Definition session_rollback : M unit :=
  fun w =>
    let s := session w in
    Done (Ok tt) (set_session (mkSession (rows s) [] (writes s)) w).

(** [session.execute(select ...)]: the session autoflushes, then reads.
    The parameters of the query are texts the store takes; its refusal of
    any other is not modelled. *)
Definition session_execute {A} (query : list User -> A) : M A :=
  session_flush ;;
  fun w => Done (Ok (query (rows (session w)))) w.

(** [datetime.now(timezone.utc)] *)
Definition datetime_now : M Z := fun w => Done (Ok (clock w)) w.

(** ** Collaborators *)

(** What [UserCreate(...).model_dump()] hands to [create]: the keys the
    method reads. *)
Record validated_data := mkValidated {
  vd_email : pystr;
  vd_password : pystr
}.

(** The modules [create], [login_user] and [reset_password] import:
    [app.utils.security], [get_settings()], [app.schemas.user_schemas],
    [app.utils.nickname_gen] and [uuid].  The generators are given by their
    successive outputs.  [send_email] is what the email service passed to
    [create] does with an account: it returns, or raises. *)
Record Env := mkEnv {
  unicode : UCD;
  hash_password : pystr -> pystr;
  verify_password : pystr -> pystr -> bool;
  max_login_attempts : Z;
  UserCreate : list (string * pystr) -> result validated_data;
  generate_nickname : nat -> pystr;
  generate_verification_token : nat -> pystr;
  uuid4 : nat -> UUID;
  send_email : User -> result unit
}.

(** ** [UserService] *)

Section UserService.
Variable env : Env.

Definition call_generate_nickname : M pystr :=
  fun w =>
    Done (Ok (generate_nickname env (nickname_calls w)))
      (mkWorld (session w) (clock w) (S (nickname_calls w)) (token_calls w)
         (uuid_calls w) (outbox w)).

Definition call_generate_verification_token : M pystr :=
  fun w =>
    Done (Ok (generate_verification_token env (token_calls w)))
      (mkWorld (session w) (clock w) (nickname_calls w) (S (token_calls w))
         (uuid_calls w) (outbox w)).

Definition call_uuid4 : M UUID :=
  fun w =>
    Done (Ok (uuid4 env (uuid_calls w)))
      (mkWorld (session w) (clock w) (nickname_calls w) (token_calls w)
         (S (uuid_calls w)) (outbox w)).

(** [await email_service.send_verification_email(user)]: the message is on
    its way when the service returns; when the service raises, the exception
    is the caller's. *)
Definition send_verification_email (u : User) : M unit :=
  fun w =>
    match send_email env u with
    | Ok _ =>
        Done (Ok tt)
          (mkWorld (session w) (clock w) (nickname_calls w) (token_calls w)
             (uuid_calls w) (outbox w ++ [u]))
    | Raise e => Done (Raise e) w
    end.

(** [session.add] of a freshly constructed object: the primary key takes
    its [uuid.uuid4] default and an INSERT is staged.  The object with its
    key is returned. *)
Definition session_add_new (u : User) : M User :=
  new_id <- call_uuid4 ;;
  let u := mkUser new_id (nickname u) (email u) (role u) (is_professional u)
             (professional_status_updated_at u) (last_login_at u)
             (failed_login_attempts u) (is_locked u) (verification_token u)
             (email_verified u) (hashed_password u) in
  stage (PInsert u) ;;
  ret u.

(** [UserService._execute_query] *)
Definition _execute_query {A} (query : list User -> A) : M A :=
  try_except
    (result <- session_execute query ;;
     session_commit ;;
     ret result)
    (fun e =>
       match e with
       | SQLAlchemyError => session_rollback ;; raise e
       | _ => raise e
       end).

(** [UserService._fetch_user]: [select(User).filter_by(...)], then
    [result.scalars().first()]. *)
Definition _fetch_user (filters : User -> bool) : M (option User) :=
  result <- _execute_query (filter filters) ;;
  ret (hd_error result).

Definition get_by_id (user_id : UUID) : M (option User) :=
  _fetch_user (fun r => N.eqb (id r) user_id).

Definition get_by_nickname (nickname_ : pystr) : M (option User) :=
  _fetch_user (fun r => pystr_eqb (nickname r) nickname_).

Definition get_by_email (email_ : pystr) : M (option User) :=
  _fetch_user (fun r => pystr_eqb (email r) email_).

(** The [while await cls.get_by_nickname(...)] loop of [create]. *)
Fixpoint unique_nickname (fuel : nat) (new_nickname : pystr) : M pystr :=
  match fuel with
  | O => fun _ => OutOfFuel
  | S fuel =>
      taken <- get_by_nickname new_nickname ;;
      match taken with
      | Some _ =>
          new_nickname <- call_generate_nickname ;;
          unique_nickname fuel new_nickname
      | None => ret new_nickname
      end
  end.

(** [UserService.create] *)
Definition create (fuel : nat) (user_data : list (string * pystr))
  : M (option User) :=
  try_except
    (validated_data <- lift (UserCreate env user_data) ;;
     existing <- get_by_email (vd_email validated_data) ;;
     match existing with
     | Some _ => ret None
     | None =>
         let hashed := hash_password env (vd_password validated_data) in
         new_nickname <- call_generate_nickname ;;
         new_nickname <- unique_nickname fuel new_nickname ;;
         new_user <- lift (User_init (unicode env)
                             (vd_email validated_data) new_nickname hashed) ;;
         token <- call_generate_verification_token ;;
         let new_user := set_verification_token (Some token) new_user in
         new_user <- session_add_new new_user ;;
         session_commit ;;
         send_verification_email new_user ;;
         ret (Some new_user)
     end)
    (fun e => ret None).

(** [UserService.register_user] *)
Definition register_user (fuel : nat) (user_data : list (string * pystr))
  : M (option User) :=
  create fuel user_data.

(** [UserService.delete] *)
Definition delete (user_id : UUID) : M bool :=
  try_except
    (user <- get_by_id user_id ;;
     match user with
     | None => ret false
     | Some user =>
         session_delete user ;;
         session_commit ;;
         ret true
     end)
    (fun e => ret false).

(** [UserService.login_user] *)
Definition login_user (email_ password : pystr) : M (option User) :=
  user <- get_by_email email_ ;;
  match user with
  | Some user =>
      if negb (email_verified user) then ret None
      else if is_locked user then ret None
      else if verify_password env password (hashed_password user) then
        let user := set_failed_login_attempts 0 user in
        now <- datetime_now ;;
        let user := set_last_login_at (SqlTime now) user in
        session_add user ;;
        session_commit ;;
        ret (Some user)
      else
        let user :=
          set_failed_login_attempts (failed_login_attempts user + 1) user in
        let user :=
          if failed_login_attempts user >=? max_login_attempts env
          then set_is_locked true user else user in
        session_add user ;;
        session_commit ;;
        ret None
  | None => ret None
  end.

(** [UserService.reset_password] *)
Definition reset_password (user_id : UUID) (new_password : pystr) : M bool :=
  try_except
    (let hashed_password_ := hash_password env new_password in
     user <- get_by_id user_id ;;
     match user with
     | Some user =>
         user <- lift (assign_hashed_password (unicode env) user
                         hashed_password_) ;;
         let user := set_failed_login_attempts 0 user in
         let user := set_is_locked false user in
         session_add user ;;
         session_commit ;;
         ret true
     | None => ret false
     end)
    (fun e => ret false).
End UserService.

(** ** The specification's wording of the two validators *)

(** The five password rules, in the order the specification lists them. *)
Inductive policy_rule :=
| RuleLength | RuleUppercase | RuleLowercase | RuleDigit | RuleSpecial.

Definition policy_rules : list policy_rule :=
  [RuleLength; RuleUppercase; RuleLowercase; RuleDigit; RuleSpecial].

Definition rule_holds (ucd : UCD) (r : policy_rule) (v : pystr) : bool :=
  match r with
  | RuleLength => 8 <=? len v
  | RuleUppercase => existsb (isupper ucd) v
  | RuleLowercase => existsb (islower ucd) v
  | RuleDigit => existsb (isdigit ucd) v
  | RuleSpecial => existsb (fun c => existsb (N.eqb c) special_characters) v
  end.

Definition rule_reason (r : policy_rule) : string :=
  match r with
  | RuleLength => msg_password_length
  | RuleUppercase => msg_password_upper
  | RuleLowercase => msg_password_lower
  | RuleDigit => msg_password_digit
  | RuleSpecial => msg_password_special
  end.

(** The first rule of the list that the candidate breaks, if any. *)
Definition first_failing (ucd : UCD) (v : pystr) : option policy_rule :=
  find (fun r => negb (rule_holds ucd r v)) policy_rules.

(** A full match of the regular expression [[A-Za-z0-9]{3,50}]. *)
Definition matches_nickname_regex (v : pystr) : bool :=
  forallb ascii_alnum v && (3 <=? len v) && (len v <=? 50).

(** ** Sample collaborators for concrete runs *)

Definition hex_digit (n : N) : N :=
  if (n <? 10)%N then (48 + n)%N else (87 + n)%N.

(** A hasher that answers with a lowercase hexadecimal digest. *)
Definition hex_hash (plain : pystr) : pystr :=
  flat_map (fun c => [hex_digit ((c / 16) mod 16); hex_digit (c mod 16)]%N)
    plain.

(** A hasher whose output carries a modular-crypt style prefix. *)
Definition crypt_hash (plain : pystr) : pystr :=
  str "$2b$12$Hx" ++ hex_hash plain.

Fixpoint dict_get (key : string) (d : list (string * pystr)) : option pystr :=
  match d with
  | [] => None
  | (k, v) :: d => if String.eqb k key then Some v else dict_get key d
  end.

Definition sample_UserCreate (d : list (string * pystr))
  : result validated_data :=
  match dict_get "email" d, dict_get "password" d with
  | Some e, Some p => Ok (mkValidated e p)
  | _, _ => Raise ValidationError
  end.

Definition sample_env (hash : pystr -> pystr) : Env := {|
  unicode := ucd_latin1;
  hash_password := hash;
  verify_password := fun plain hashed => pystr_eqb (hash plain) hashed;
  max_login_attempts := 5;
  UserCreate := sample_UserCreate;
  generate_nickname := fun n => str "guest" ++ repeat 48%N n;
  generate_verification_token := fun n => str "token" ++ repeat 48%N n;
  uuid4 := fun n => (1000 + N.of_nat n)%N;
  send_email := fun _ => Ok tt
|}.

Definition crypt_env : Env := sample_env crypt_hash.

(** The same collaborators, with an email service that cannot reach its
    server. *)
Definition offline_env : Env :=
  mkEnv (unicode crypt_env) (hash_password crypt_env)
    (verify_password crypt_env) (max_login_attempts crypt_env)
    (UserCreate crypt_env) (generate_nickname crypt_env)
    (generate_verification_token crypt_env) (uuid4 crypt_env)
    (fun _ => Raise (OSError "connection refused")).
Definition hex_env : Env := sample_env hex_hash.

(** The nickname c-a-f-U+00E9. *)
Definition cafe : pystr := [99; 97; 102; 233]%N.

Definition alice_password : pystr := str "Secret#2024".

(** An account as registration leaves it, for a given hasher. *)
Definition alice (hash : pystr -> pystr) : User :=
  mkUser 7%N (str "alice01") (str "alice@example.com") ANONYMOUS false
    SqlNull SqlNull 0 false (Some (str "token")) false (hash alice_password).

(** The same account, locked after three failed logins. *)
Definition locked_alice (hash : pystr -> pystr) : User :=
  lock_account (set_failed_login_attempts 3 (alice hash)).

Definition world_of (table : list User) : World :=
  mkWorld (mkSession table [] 0) 1000 0 0 0 [].

(** The world a run ends in. *)
Definition world_after {A} (o : outcome A) : World :=
  match o with
  | Done _ w => w
  | OutOfFuel => world_of []
  end.

(** The account a first registration of [alice_request] creates under
    [sample_env crypt_hash]. *)
Definition registered_alice : User :=
  mkUser 1000%N (str "guest") (str "alice@example.com") ANONYMOUS false
    SqlNull SqlNull 0 false (Some (str "token")) false
    (crypt_hash alice_password).

Definition alice_request : list (string * pystr) :=
  [("email"%string, str "alice@example.com");
   ("password"%string, alice_password)].

(** ** The rest of the service, and how callers drive it *)

Definition set_email (v : pystr) (u : User) : User :=
  mkUser (id u) (nickname u) v (role u) (is_professional u)
    (professional_status_updated_at u) (last_login_at u)
    (failed_login_attempts u) (is_locked u) (verification_token u)
    (email_verified u) (hashed_password u).

(** [UserService.list_users] for non-negative [skip] and [limit]:
    [select(User).offset(skip).limit(limit)], then [result.scalars().all()].
    What the store answers to a negative OFFSET or LIMIT is not modelled. *)
Definition list_users (skip limit : nat) : M (list User) :=
  _execute_query (fun table => firstn limit (skipn skip table)).

(** [session.add(user); await session.commit()], as [login_user] and
    [reset_password] do after changing a loaded account, and as a caller does
    after an entity method such as [verify_email] or [unlock_account]. *)
Definition persist (u : User) : M unit :=
  session_add u ;; session_commit ;; ret tt.

(** Storing a string in a [String(n)] column: a value of more than [n]
    characters is an error, unless the excess is spaces only, which the store
    cuts off. *)
Definition varchar (n : nat) (v : pystr) : result pystr :=
  if (List.length v <=? n)%nat then Ok v
  else if forallb (N.eqb 32) (skipn n v) then Ok (firstn n v)
  else Raise SQLAlchemyError.

(** What [UserUpdate(...).dict(exclude_unset=True)] hands to [update], for
    the keys that concern a modelled column: [None] is an unset key. *)
Record update_fields := mkUpdateFields {
  uf_email : option pystr;
  uf_nickname : option pystr;
  uf_password : option pystr
}.

(** The keyword arguments of [.values(...)]. *)
Record column_values := mkValues {
  cv_email : option pystr;
  cv_nickname : option pystr;
  cv_hashed_password : option pystr
}.

Definition fit_column (n : nat) (v : option pystr) : result (option pystr) :=
  match v with
  | None => Ok None
  | Some s => bind_result (varchar n s) (fun s => Ok (Some s))
  end.

(** The values as the columns [email String(255)], [nickname String(50)] and
    [hashed_password String(255)] take them. *)
Definition fit_values (v : column_values) : result column_values :=
  bind_result (fit_column 255 (cv_email v)) (fun e =>
  bind_result (fit_column 50 (cv_nickname v)) (fun n =>
  bind_result (fit_column 255 (cv_hashed_password v)) (fun h =>
  Ok (mkValues e n h)))).

Definition set_if {A} (set : A -> User -> User) (v : option A) (r : User)
  : User :=
  match v with
  | Some a => set a r
  | None => r
  end.

(** The SET clause of the UPDATE statement on one row.  The statement writes
    the columns directly: no [@validates] hook of the entity runs. *)
Definition apply_values (v : column_values) (r : User) : User :=
  set_if set_hashed_password (cv_hashed_password v)
    (set_if set_nickname (cv_nickname v)
       (set_if set_email (cv_email v) r)).

Definition holds (column : User -> pystr) (v : option pystr) (r : User)
  : bool :=
  match v with
  | Some s => pystr_eqb (column r) s
  | None => false
  end.

(** Another row already holds the new email or the new nickname. *)
Definition conflicts (user_id : UUID) (v : column_values) (table : list User)
  : bool :=
  existsb (fun r => negb (N.eqb (id r) user_id)
                    && (holds email (cv_email v) r
                        || holds nickname (cv_nickname v) r)) table.

(** [update(User).where(User.id == user_id).values(...)] run by the store:
    the values are brought to their column types, then the matching row is
    rewritten unless that breaks a unique constraint.  Without a matching
    row nothing changes. *)
Definition update_statement (user_id : UUID) (v : column_values) (s : Session)
  : result (unit * Session) :=
  bind_result (fit_values v) (fun v =>
    if existsb (fun r => N.eqb (id r) user_id) (rows s) then
      if conflicts user_id v (rows s) then Raise SQLAlchemyError
      else
        Ok (tt,
            mkSession
              (map (fun r => if N.eqb (id r) user_id then apply_values v r
                             else r) (rows s))
              (pending s) (S (writes s)))
    else Ok (tt, mkSession (rows s) (pending s) (S (writes s)))).

(** [session.execute(statement)] for a statement that writes: the session
    autoflushes, then the store runs the statement. *)
Definition session_execute_statement {A}
  (statement : Session -> result (A * Session)) : M A :=
  session_flush ;;
  fun w =>
    match statement (session w) with
    | Ok (a, s) => Done (Ok a) (set_session s w)
    | Raise e => Done (Raise e) w
    end.

(** [UserService._execute_query] on such a statement. *)
Definition _execute_statement {A}
  (statement : Session -> result (A * Session)) : M A :=
  try_except
    (result <- session_execute_statement statement ;;
     session_commit ;;
     ret result)
    (fun e =>
       match e with
       | SQLAlchemyError => session_rollback ;; raise e
       | _ => raise e
       end).

(** [UserService.update].  [UserUpdate] is the schema of
    [app.schemas.user_schemas]; the values of [update_data] are strings, as
    the signature says.  [session.refresh(updated_user)] is not awaited and
    does nothing. *)
Definition update (env : Env)
  (UserUpdate : list (string * pystr) -> result update_fields)
  (user_id : UUID) (update_data : list (string * pystr)) : M (option User) :=
  try_except
    (validated_data <- lift (UserUpdate update_data) ;;
     let values :=
       mkValues (uf_email validated_data) (uf_nickname validated_data)
         (option_map (hash_password env) (uf_password validated_data)) in
     _execute_statement (update_statement user_id values) ;;
     updated_user <- get_by_id user_id ;;
     match updated_user with
     | Some updated_user => ret (Some updated_user)
     | None => ret None
     end)
    (fun e => ret None).

(** A text the driver can put in a statement and the store takes: Unicode
    scalar values only (no surrogate, nothing above U+10FFFF) and no
    U+0000.  A query or a row with any other text is refused by the store;
    [session_execute] and [flush_op] do not model that refusal, and the
    statements below that depend on it say so in a hypothesis. *)
Definition sendable (s : pystr) : bool :=
  forallb (fun c => negb (N.eqb c 0)
                    && negb (between 55296 57343 c)
                    && (c <=? 1114111)%N) s.

(** The largest value of an [Integer] column.  [flush_op] does not model the
    store refusing a larger one; the statements below that depend on it say
    so in a hypothesis. *)
Definition int4_max : Z := 2147483647.

(** The width of the [hashed_password] column, [String(255)].  [flush_op]
    does not model the store refusing a longer value. *)
Definition hashed_password_width : nat := 255.

(** A caller trying one password after the other on the same email. *)
Fixpoint login_attempts (env : Env) (email_ : pystr) (passwords : list pystr)
  : M (list (option User)) :=
  match passwords with
  | [] => ret []
  | password :: passwords =>
      user <- login_user env email_ password ;;
      users <- login_attempts env email_ passwords ;;
      ret (user :: users)
  end.

(** The candidates the nickname loop of [create] looks at: the one it is
    entered with, then the generator's outputs from its [calls]-th on. *)
Definition candidate (env : Env) (first : pystr) (calls k : nat) : pystr :=
  match k with
  | O => first
  | S k => generate_nickname env (calls + k)
  end.

Definition nickname_taken (table : list User) (n : pystr) : bool :=
  existsb (fun r => pystr_eqb (nickname r) n) table.

(** The constraints the [users] table declares: [id] is the primary key,
    [nickname] and [email] are [unique=True]. *)
Definition table_ok (table : list User) : Prop :=
  NoDup (map id table)
  /\ NoDup (map nickname table)
  /\ NoDup (map email table).

(** A schema for [update] in concrete runs. *)
Definition sample_UserUpdate (d : list (string * pystr))
  : result update_fields :=
  match dict_get "email" d, dict_get "nickname" d, dict_get "password" d with
  | None, None, None => Raise ValidationError
  | e, n, p => Ok (mkUpdateFields e n p)
  end.

(** A second account, verified. *)
Definition bob (hash : pystr -> pystr) : User :=
  mkUser 8%N (str "bob02") (str "bob@example.com") AUTHENTICATED false
    SqlNull SqlNull 0 false None true (hash (str "Hunter#42")).

(** A session in which a caller has staged a second copy of a stored
    account. *)
Definition staged_duplicate : World :=
  mkWorld (mkSession [alice crypt_hash] [PInsert (alice crypt_hash)] 0)
    1000 0 0 0 [].

(** * Properties *)

(** ** Strings and validators *)

Lemma pystr_eqb_eq a b : pystr_eqb a b = true <-> a = b.
Proof.
  unfold pystr_eqb. destruct (list_eq_dec N.eq_dec a b); split; congruence.
Qed.

Lemma pystr_eqb_refl a : pystr_eqb a a = true.
Proof. now apply pystr_eqb_eq. Qed.

(** Split on every condition of a chain of [if]s. *)
Ltac case_ifs :=
  repeat match goal with
         | |- context [if ?b then _ else _] => destruct b
         end.

Lemma validate_password_raises ucd v e :
  validate_password ucd v = Raise e -> exists msg, e = ValueError msg.
Proof.
  unfold validate_password.
  case_ifs; intros H; inversion H; eauto.
Qed.

Lemma validate_password_returns ucd v v' :
  validate_password ucd v = Ok v' -> v' = v.
Proof.
  unfold validate_password.
  case_ifs; intros H; inversion H; reflexivity.
Qed.

Lemma validate_nickname_raises ucd v e :
  validate_nickname ucd v = Raise e -> exists msg, e = ValueError msg.
Proof.
  unfold validate_nickname.
  case_ifs; intros H; inversion H; eauto.
Qed.

Lemma isalnum_spec ucd v :
  isalnum ucd v = true <->
  v <> [] /\ forall c, In c v -> isalnum_char ucd c = true.
Proof.
  destruct v as [|c v].
  - simpl. split; [discriminate | intros [H _]; now elim H].
  - unfold isalnum. rewrite forallb_forall. split.
    + intros H. split; [discriminate | exact H].
    + intros [_ H]. exact H.
Qed.

Lemma ascii_alnum_is_ascii c : ascii_alnum c = true -> is_ascii c = true.
Proof.
  unfold ascii_alnum, ascii_upper, ascii_lower, ascii_digit, between, is_ascii.
  rewrite !orb_true_iff, !andb_true_iff, !N.leb_le, N.ltb_lt. lia.
Qed.

(** ** The session *)

Lemma set_session_same w :
  pending (session w) = [] ->
  set_session (mkSession (rows (session w)) [] (writes (session w))) w = w.
Proof.
  destruct w as [[r p n] c a b d o]. simpl. intros ->. reflexivity.
Qed.

Lemma flush_clean w :
  pending (session w) = [] -> session_flush w = Done (Ok tt) w.
Proof.
  intros H. unfold session_flush. rewrite H. simpl.
  now rewrite set_session_same.
Qed.

Lemma flush_pending r w w' :
  session_flush w = Done r w' -> pending (session w') = [].
Proof.
  unfold session_flush.
  destruct (flush_ops _ _ _ _) as [[table n]|e]; intros H; inversion H;
    reflexivity.
Qed.

Section ServiceLemmas.

Lemma execute_query_clean {A} (q : list User -> A) w :
  pending (session w) = [] ->
  _execute_query q w = Done (Ok (q (rows (session w)))) w.
Proof.
  intros H. unfold _execute_query, try_except, session_execute,
    session_commit, bind, ret.
  now rewrite !(flush_clean w H).
Qed.

Lemma execute_query_pending {A} (q : list User -> A) r w w' :
  _execute_query q w = Done r w' -> pending (session w') = [].
Proof.
  unfold _execute_query, try_except, session_execute, session_commit,
    bind, ret, raise, session_rollback.
  destruct (session_flush w) as [[[]|e] w1|] eqn:F; try discriminate.
  - pose proof (flush_pending _ _ _ F) as P.
    rewrite (flush_clean w1 P). intros H. inversion H. now subst.
  - pose proof (flush_pending _ _ _ F) as P.
    destruct e; intros H; inversion H; subst; simpl; auto.
Qed.

Lemma fetch_clean f w :
  pending (session w) = [] ->
  _fetch_user f w = Done (Ok (hd_error (filter f (rows (session w))))) w.
Proof.
  intros H. unfold _fetch_user, bind, ret.
  now rewrite (execute_query_clean (filter f) w H).
Qed.

Lemma fetch_pending f r w w' :
  _fetch_user f w = Done r w' -> pending (session w') = [].
Proof.
  unfold _fetch_user, bind, ret.
  destruct (_execute_query (filter f) w) as [[a|e] w1|] eqn:E;
    try discriminate; intros H; inversion H; subst;
    eapply execute_query_pending; eauto.
Qed.

(** A lookup that leaves the world as it found it ran on a session with
    nothing staged, and answered with the first matching row. *)
Lemma fetch_fixed f o w :
  _fetch_user f w = Done (Ok o) w ->
  pending (session w) = [] /\ o = hd_error (filter f (rows (session w))).
Proof.
  intros H. pose proof (fetch_pending _ _ _ _ H) as P. split; [exact P|].
  rewrite (fetch_clean f w P) in H. now inversion H.
Qed.
End ServiceLemmas.

(** ** Password policy *)

Lemma in_special c :
  existsb (N.eqb c) special_characters = true <-> In c special_characters.
Proof.
  rewrite existsb_exists. split.
  - intros [y [Hy E]]. apply N.eqb_eq in E. now subst.
  - intros H. exists c. split; [exact H | apply N.eqb_refl].
Qed.

Lemma validate_password_first_failing (ucd : UCD) (v : pystr) :
  validate_password ucd v =
  match first_failing ucd v with
  | None => Ok v
  | Some r => Raise (ValueError (rule_reason r))
  end.
Proof.
  unfold validate_password, first_failing, policy_rules, any, is_special.
  simpl find.
  destruct (Z.ltb_spec (len v) 8) as [L|L];
    destruct (Z.leb_spec 8 (len v)) as [L'|L']; try lia; simpl; trivial.
  destruct (existsb (isupper ucd) v); simpl; trivial.
  destruct (existsb (islower ucd) v); simpl; trivial.
  destruct (existsb (isdigit ucd) v); simpl; trivial.
  destruct (existsb _ v); simpl; trivial.
Qed.

(** C5: [validate_password] accepts a candidate exactly when the five rules
    hold (at least 8 characters, an uppercase letter, a lowercase letter, a
    digit, a character of the special set), and when it rejects, the
    [ValueError] carries the reason of the first rule, in the listed order,
    that the candidate breaks. *)
Theorem validate_password_policy (ucd : UCD) (v : pystr) :
  (validate_password ucd v = Ok v <->
     8 <= len v
     /\ (exists c, In c v /\ isupper ucd c = true)
     /\ (exists c, In c v /\ islower ucd c = true)
     /\ (exists c, In c v /\ isdigit ucd c = true)
     /\ (exists c, In c v /\ In c special_characters))
  /\ validate_password ucd v =
       match first_failing ucd v with
       | None => Ok v
       | Some r => Raise (ValueError (rule_reason r))
       end.
Proof.
  pose proof (validate_password_first_failing ucd v) as R.
  split; [|exact R].
  rewrite R. unfold first_failing, policy_rules. simpl find.
  rewrite <- (Z.leb_le 8 (len v)).
  rewrite <- !existsb_exists.
  assert (S : (exists c, In c v /\ In c special_characters) <->
              existsb (fun c => existsb (N.eqb c) special_characters) v = true).
  { rewrite existsb_exists. split; intros [c [H1 H2]]; exists c; split; auto;
      now apply in_special. }
  rewrite S.
  destruct (8 <=? len v); simpl;
    [|split; [discriminate | intros [? _]; discriminate]].
  destruct (existsb (isupper ucd) v); simpl;
    [|split; [discriminate | intros [_ [? _]]; discriminate]].
  destruct (existsb (islower ucd) v); simpl;
    [|split; [discriminate | intros [_ [_ [? _]]]; discriminate]].
  destruct (existsb (isdigit ucd) v); simpl;
    [|split; [discriminate | intros [_ [_ [_ [? _]]]]; discriminate]].
  destruct (existsb _ v); simpl;
    [|split; [discriminate | intros [_ [_ [_ [_ ?]]]]; discriminate]].
  split; auto.
Qed.

(** ** Nickname validation *)

(** C6, as stated, fails: the four-character nickname c-a-f-U+00E9 does not
    match [[A-Za-z0-9]{3,50}], yet [validate_nickname] returns it. *)
Lemma validate_nickname_accepts_non_ascii :
  validate_nickname ucd_latin1 cafe = Ok cafe
  /\ matches_nickname_regex cafe = false.
Proof. split; reflexivity. Qed.

Lemma forallb_ascii_alnum ucd v :
  forallb is_ascii v = true ->
  forallb (isalnum_char ucd) v = forallb ascii_alnum v.
Proof.
  induction v as [|c v IH]; simpl; [reflexivity|].
  rewrite andb_true_iff. intros [Hc Hv].
  rewrite (IH Hv). unfold isalnum_char. now rewrite Hc.
Qed.

(** C6 (amended): [validate_nickname] returns the nickname exactly when every
    character is alphanumeric in the sense of [str.isalnum] and the length
    lies in [3, 50]; any other nickname raises a [ValueError].  On a nickname
    made of ASCII characters only, this is a match of [[A-Za-z0-9]{3,50}]. *)
Theorem validate_nickname_unicode (ucd : UCD) (v : pystr) :
  (validate_nickname ucd v = Ok v <->
     (forall c, In c v -> isalnum_char ucd c = true) /\ 3 <= len v <= 50)
  /\ (validate_nickname ucd v = Ok v
      \/ exists msg, validate_nickname ucd v = Raise (ValueError msg))
  /\ (forallb is_ascii v = true ->
      (validate_nickname ucd v = Ok v <-> matches_nickname_regex v = true)).
Proof.
  assert (E : validate_nickname ucd v = Ok v <->
              isalnum ucd v = true /\ 3 <= len v <= 50).
  { unfold validate_nickname.
    destruct (isalnum ucd v); simpl.
    - destruct (Z.ltb_spec (len v) 3); simpl.
      + split; [discriminate | lia].
      + destruct (Z.gtb_spec (len v) 50).
        * split; [discriminate | lia].
        * split; [intros _; split; [reflexivity | lia] | reflexivity].
    - split; [discriminate | intros [? _]; discriminate]. }
  split; [|split].
  - rewrite E, isalnum_spec. split.
    + intros [[_ H] L]. auto.
    + intros [H L]. repeat split; try lia; auto.
      intros ->. unfold len in L. simpl in L. lia.
  - unfold validate_nickname.
    destruct (negb (isalnum ucd v)); [right; eauto|].
    destruct (_ || _); [right; eauto | left; reflexivity].
  - intros A. rewrite E. unfold matches_nickname_regex.
    rewrite !andb_true_iff, !Z.leb_le.
    rewrite <- (forallb_ascii_alnum ucd v A).
    destruct v as [|c v].
    + unfold len. simpl. split; [lia | intros [[_ ?] _]; lia].
    + unfold isalnum. tauto.
Qed.

Lemma validate_nickname_unicode_witness :
  validate_nickname ucd_latin1 (str "alice01") = Ok (str "alice01")
  <-> matches_nickname_regex (str "alice01") = true.
Proof.
  apply (proj2 (proj2 (validate_nickname_unicode ucd_latin1 (str "alice01")))).
  reflexivity.
Defined.

(** ** Reading back what a flush wrote *)

Lemma first_after_update f u R table :
  hd_error (filter f table) = Some u ->
  id R = id u ->
  f R = true ->
  hd_error (filter f (update_row R table)) = Some R.
Proof.
  intros H I FR. induction table as [|r t IH]; simpl in *; [discriminate|].
  destruct (f r) eqn:Fr.
  - simpl in H. inversion H; subst r.
    rewrite I, N.eqb_refl. rewrite FR. reflexivity.
  - destruct (N.eqb (id r) (id R)).
    + rewrite FR. reflexivity.
    + rewrite Fr. auto.
Qed.

Lemma first_in f (u : User) table :
  hd_error (filter f table) = Some u -> In u table /\ f u = true.
Proof.
  intros H. apply filter_In.
  destruct (filter f table); simpl in H; inversion H. now left.
Qed.

Lemma id_resolve t u : id (resolve t u) = id u.
Proof. reflexivity. Qed.

Lemma email_resolve t u : email (resolve t u) = email u.
Proof. reflexivity. Qed.

(** Staging the UPDATE of a loaded account and committing, on a session with
    nothing else staged. *)
Lemma update_commit {A} (a : A) u w :
  pending (session w) = [] ->
  (session_add u ;; session_commit ;; ret a) w =
  Done (Ok a)
    (set_session
       (mkSession (update_row (resolve (clock w) u) (rows (session w))) []
          (S (writes (session w)))) w).
Proof.
  intros P. unfold session_add, stage, session_commit, session_flush, bind, ret.
  destruct w as [[r p n] c a1 a2 a3 o]. simpl in *. subst p. reflexivity.
Qed.

Lemma delete_commit {A} (a : A) u w :
  pending (session w) = [] ->
  (session_delete u ;; session_commit ;; ret a) w =
  Done (Ok a)
    (set_session
       (mkSession (delete_row u (rows (session w))) []
          (S (writes (session w)))) w).
Proof.
  intros P.
  unfold session_delete, stage, session_commit, session_flush, bind, ret.
  destruct w as [[r p n] c a1 a2 a3 o]. simpl in *. subst p. reflexivity.
Qed.

(** ** Login *)

Section Login.
Variable env : Env.

(** What [login_user] does once the email has resolved to an account. *)
Lemma login_user_found email_ password u w :
  get_by_email email_ w = Done (Ok (Some u)) w ->
  login_user env email_ password w =
  if negb (email_verified u) then Done (Ok None) w
  else if is_locked u then Done (Ok None) w
  else if verify_password env password (hashed_password u) then
    let u' := set_last_login_at (SqlTime (clock w))
                (set_failed_login_attempts 0 u) in
    Done (Ok (Some u'))
      (set_session
         (mkSession (update_row (resolve (clock w) u') (rows (session w))) []
            (S (writes (session w)))) w)
  else
    let u1 := set_failed_login_attempts (failed_login_attempts u + 1) u in
    let u' := if failed_login_attempts u1 >=? max_login_attempts env
              then set_is_locked true u1 else u1 in
    Done (Ok None)
      (set_session
         (mkSession (update_row (resolve (clock w) u') (rows (session w))) []
            (S (writes (session w)))) w).
Proof.
  intros G. pose proof (fetch_fixed _ _ _ G) as [P _].
  unfold login_user. unfold bind at 1. rewrite G.
  destruct (negb (email_verified u)); [reflexivity|].
  destruct (is_locked u); [reflexivity|].
  destruct (verify_password env password (hashed_password u)).
  - unfold bind at 1. unfold datetime_now. now rewrite update_commit.
  - now rewrite update_commit.
Qed.

Lemma get_by_email_after_update email_ u R w n :
  get_by_email email_ w = Done (Ok (Some u)) w ->
  id R = id u -> email R = email u ->
  let w' := set_session (mkSession (update_row R (rows (session w))) [] n) w in
  get_by_email email_ w' = Done (Ok (Some R)) w'.
Proof.
  intros G I E w'. apply fetch_fixed in G. destruct G as [P G].
  unfold get_by_email. rewrite fetch_clean by reflexivity.
  subst w'. simpl. f_equal. f_equal.
  symmetry in G. pose proof (first_in _ _ _ G) as [_ Fu].
  apply first_after_update with (u := u); auto.
  now rewrite E.
Qed.
End Login.

Lemma get_by_id_after_update uid u R w n :
  get_by_id uid w = Done (Ok (Some u)) w ->
  id R = id u ->
  let w' := set_session (mkSession (update_row R (rows (session w))) [] n) w in
  get_by_id uid w' = Done (Ok (Some R)) w'.
Proof.
  intros G I w'. apply fetch_fixed in G. destruct G as [P G].
  unfold get_by_id. rewrite fetch_clean by reflexivity.
  subst w'. simpl. f_equal. f_equal.
  symmetry in G. pose proof (first_in _ _ _ G) as [_ Fu].
  apply first_after_update with (u := u); auto.
  now rewrite I.
Qed.

(** C1: an email-verified, unlocked account one failure short of the
    threshold, a login with its email and a password that does not verify:
    the call returns no account, and the stored account, read back by email,
    has [failed_login_attempts = max_login_attempts] and [is_locked = True];
    one UPDATE was written and nothing is left staged. *)
Theorem login_wrong_password_at_threshold
  (env : Env) (email_ password : pystr) (u : User) (w : World) :
  get_by_email email_ w = Done (Ok (Some u)) w ->
  email_verified u = true ->
  is_locked u = false ->
  failed_login_attempts u = max_login_attempts env - 1 ->
  verify_password env password (hashed_password u) = false ->
  exists w' u',
    login_user env email_ password w = Done (Ok None) w'
    /\ get_by_email email_ w' = Done (Ok (Some u')) w'
    /\ id u' = id u
    /\ failed_login_attempts u' = max_login_attempts env
    /\ is_locked u' = true
    /\ rows (session w') = update_row u' (rows (session w))
    /\ pending (session w') = []
    /\ writes (session w') = S (writes (session w)).
Proof.
  intros G V L F W.
  rewrite (login_user_found env email_ password u w G), V, L, W. simpl.
  replace (failed_login_attempts u + 1 >=? max_login_attempts env) with true
    by (symmetry; apply Z.geb_le; lia).
  eexists. eexists. split; [reflexivity|].
  split; [apply get_by_email_after_update with (u := u); auto|].
  simpl. repeat split. lia.
Qed.

Lemma login_wrong_password_at_threshold_witness :
  exists w' u',
    login_user crypt_env (str "alice@example.com") (str "guess")
      (world_of [set_failed_login_attempts 4 (verify_email (alice crypt_hash))])
    = Done (Ok None) w'
    /\ get_by_email (str "alice@example.com") w' = Done (Ok (Some u')) w'
    /\ id u' = 7%N
    /\ failed_login_attempts u' = 5
    /\ is_locked u' = true
    /\ rows (session w') =
       update_row u'
         [set_failed_login_attempts 4 (verify_email (alice crypt_hash))]
    /\ pending (session w') = []
    /\ writes (session w') = 1%nat.
Proof.
  apply (login_wrong_password_at_threshold crypt_env
           (str "alice@example.com") (str "guess")
           (set_failed_login_attempts 4 (verify_email (alice crypt_hash)))
           (world_of [set_failed_login_attempts 4
                        (verify_email (alice crypt_hash))]));
    reflexivity.
Defined.

(** C3: when the email resolves to an account with [email_verified = False],
    [login_user] returns no account whatever the password, and the world it
    leaves is the one it found: no row, no counter and no lock has changed
    and nothing was written. *)
Theorem login_unverified_changes_nothing
  (env : Env) (email_ password : pystr) (u : User) (w : World) :
  get_by_email email_ w = Done (Ok (Some u)) w ->
  email_verified u = false ->
  login_user env email_ password w = Done (Ok None) w.
Proof.
  intros G V. rewrite (login_user_found env email_ password u w G), V.
  reflexivity.
Qed.

Lemma login_unverified_changes_nothing_witness :
  login_user crypt_env (str "alice@example.com") alice_password
    (world_of [alice crypt_hash])
  = Done (Ok None) (world_of [alice crypt_hash])
  /\ verify_password crypt_env alice_password
       (hashed_password (alice crypt_hash)) = true.
Proof.
  split; [|reflexivity].
  apply (login_unverified_changes_nothing crypt_env
           (str "alice@example.com") alice_password (alice crypt_hash)
           (world_of [alice crypt_hash])); reflexivity.
Defined.

(** ** Password reset *)

(** What [reset_password] does once the identifier has resolved to an
    account: everything hinges on the validator's verdict on the hash. *)
Lemma reset_password_found (env : Env) uid new_password u w :
  get_by_id uid w = Done (Ok (Some u)) w ->
  reset_password env uid new_password w =
  match validate_password (unicode env) (hash_password env new_password) with
  | Ok v =>
      let u' := set_is_locked false
                  (set_failed_login_attempts 0 (set_hashed_password v u)) in
      Done (Ok true)
        (set_session
           (mkSession (update_row (resolve (clock w) u') (rows (session w))) []
              (S (writes (session w)))) w)
  | Raise e => Done (Ok false) w
  end.
Proof.
  intros G. pose proof (fetch_fixed _ _ _ G) as [P _].
  unfold reset_password, try_except. unfold bind at 1. rewrite G.
  unfold assign_hashed_password, bind_result.
  destruct (validate_password _ _) as [v|e].
  - unfold bind at 1. unfold lift. now rewrite update_commit.
  - reflexivity.
Qed.

Lemma reset_password_not_found (env : Env) uid new_password w :
  get_by_id uid w = Done (Ok None) w ->
  reset_password env uid new_password w = Done (Ok false) w.
Proof.
  intros G. unfold reset_password, try_except. unfold bind at 1.
  now rewrite G.
Qed.

(** C2: the code at the failing input.  The claim has [reset_password] set
    [failed_login_attempts] to 0 for every existing account.  Here the
    account exists with three failed attempts, the hasher answers in
    lowercase hexadecimal, [validate_password] (which the entity runs on the
    hash) refuses it, and after [reset_password] has returned [False] the
    stored counter is still 3. *)
Lemma reset_password_leaves_the_counter :
  get_by_id 7%N (world_of [locked_alice hex_hash])
  = Done (Ok (Some (locked_alice hex_hash))) (world_of [locked_alice hex_hash])
  /\ failed_login_attempts (locked_alice hex_hash) = 3
  /\ first_failing ucd_latin1 (hex_hash (str "Fresh#2025"))
     = Some RuleUppercase
  /\ exists w' u',
       reset_password hex_env 7%N (str "Fresh#2025")
         (world_of [locked_alice hex_hash]) = Done (Ok false) w'
       /\ get_by_id 7%N w' = Done (Ok (Some u')) w'
       /\ failed_login_attempts u' = 3.
Proof.
  split; [reflexivity|]. split; [reflexivity|]. split; [reflexivity|].
  exists (world_of [locked_alice hex_hash]), (locked_alice hex_hash).
  repeat split; vm_compute; reflexivity.
Qed.

(** C4: the code at the failing input.  The claim has [reset_password]
    return [True] for every existing account.  With a hasher that answers in
    lowercase hexadecimal, the locked account with three failed attempts
    exists, the new plaintext satisfies the five rules, and yet
    [reset_password] returns [False] and the account stays locked with its
    three attempts: [validate_password], documented as a check of the
    password, runs on the hash. *)
Lemma reset_password_returns_false_on_existing_account :
  get_by_id 7%N (world_of [locked_alice hex_hash])
  = Done (Ok (Some (locked_alice hex_hash))) (world_of [locked_alice hex_hash])
  /\ validate_password ucd_latin1 (str "Fresh#2025") = Ok (str "Fresh#2025")
  /\ reset_password hex_env 7%N (str "Fresh#2025")
       (world_of [locked_alice hex_hash])
     = Done (Ok false) (world_of [locked_alice hex_hash])
  /\ is_locked (locked_alice hex_hash) = true
  /\ failed_login_attempts (locked_alice hex_hash) = 3.
Proof. repeat split; vm_compute; reflexivity. Qed.

(** ** Delete *)

Lemma delete_found uid u w :
  get_by_id uid w = Done (Ok (Some u)) w ->
  delete uid w =
  Done (Ok true)
    (set_session
       (mkSession (delete_row u (rows (session w))) []
          (S (writes (session w)))) w).
Proof.
  intros G. pose proof (fetch_fixed _ _ _ G) as [P _].
  unfold delete, try_except. unfold bind at 1. rewrite G.
  now rewrite delete_commit.
Qed.

Lemma no_row_after_delete uid table :
  filter (fun r => N.eqb (id r) uid)
    (filter (fun r => negb (N.eqb (id r) uid)) table) = [].
Proof.
  induction table as [|r t IH]; simpl; [reflexivity|].
  destruct (N.eqb (id r) uid) eqn:E; simpl; [exact IH|].
  now rewrite E.
Qed.

(** C8: [delete] on an identifier that resolves to no account returns
    [False] as a value (no exception leaves the call) and leaves the world as
    it was, so nothing was written; on an identifier that resolves to an
    account it returns [True], one DELETE is written, no row with that
    identifier remains, every other row is kept, and a second [delete] of the
    same identifier returns [False] and changes nothing. *)
Theorem delete_outcomes (uid : UUID) (w : World) :
  (get_by_id uid w = Done (Ok None) w ->
   delete uid w = Done (Ok false) w)
  /\ (forall u,
         get_by_id uid w = Done (Ok (Some u)) w ->
         exists w',
           delete uid w = Done (Ok true) w'
           /\ rows (session w') =
              filter (fun r => negb (N.eqb (id r) uid)) (rows (session w))
           /\ writes (session w') = S (writes (session w))
           /\ pending (session w') = []
           /\ get_by_id uid w' = Done (Ok None) w'
           /\ delete uid w' = Done (Ok false) w').
Proof.
  split.
  - intros G. unfold delete, try_except. unfold bind at 1. now rewrite G.
  - intros u G. rewrite (delete_found uid u w G).
    pose proof (fetch_fixed _ _ _ G) as [P F].
    symmetry in F. apply first_in in F. destruct F as [_ F].
    apply N.eqb_eq in F.
    eexists. split; [reflexivity|].
    assert (N : forall w1,
               pending (session w1) = [] ->
               rows (session w1) =
               filter (fun r => negb (N.eqb (id r) uid)) (rows (session w)) ->
               get_by_id uid w1 = Done (Ok None) w1).
    { intros w1 P1 R1. unfold get_by_id. rewrite fetch_clean by exact P1.
      now rewrite R1, no_row_after_delete. }
    simpl. unfold delete_row. rewrite F.
    split; [reflexivity|]. split; [reflexivity|]. split; [reflexivity|].
    match goal with
    | |- get_by_id uid ?w1 = _ /\ _ =>
        assert (G1 : get_by_id uid w1 = Done (Ok None) w1)
          by (apply N; reflexivity)
    end.
    split; [exact G1|].
    unfold delete, try_except. unfold bind at 1. now rewrite G1.
Qed.

Lemma delete_outcomes_witness :
  delete 8%N (world_of [alice crypt_hash])
  = Done (Ok false) (world_of [alice crypt_hash])
  /\ exists w',
       delete 7%N (world_of [alice crypt_hash]) = Done (Ok true) w'
       /\ rows (session w') = []
       /\ writes (session w') = 1%nat
       /\ delete 7%N w' = Done (Ok false) w'.
Proof.
  split.
  - apply (proj1 (delete_outcomes 8%N (world_of [alice crypt_hash]))).
    reflexivity.
  - destruct (proj2 (delete_outcomes 7%N (world_of [alice crypt_hash]))
                (alice crypt_hash) eq_refl)
      as [w' [H1 [H2 [H3 [_ [_ H6]]]]]].
    exists w'. repeat split; assumption.
Defined.

(** ** Professional status *)

(** C9, as stated, fails: after [update_professional_status] the attribute
    is not a point in time at all, whatever the clock reads; it holds the
    unevaluated expression [func.now()]. *)
Lemma professional_status_stamp_is_not_a_time :
  ~ exists t,
      professional_status_updated_at
        (update_professional_status (alice crypt_hash) true) = SqlTime t.
Proof. intros [t H]. discriminate H. Qed.

(** C9 (amended): after [update_professional_status(status)],
    [is_professional] equals [status] and [professional_status_updated_at]
    holds the SQL expression [func.now()], every other attribute being as
    before; when the change is then added to the session and committed, the
    store evaluates the expression and the stored account carries the time of
    that flush. *)
Theorem update_professional_status_effect (self : User) (status : bool) :
  let self' := update_professional_status self status in
  is_professional self' = status
  /\ professional_status_updated_at self' = SqlFuncNow
  /\ self' = set_professional_status_updated_at SqlFuncNow
               (set_is_professional status self)
  /\ (forall uid w,
         get_by_id uid w = Done (Ok (Some self)) w ->
         exists w' stored,
           (session_add self' ;; session_commit ;; ret tt) w = Done (Ok tt) w'
           /\ get_by_id uid w' = Done (Ok (Some stored)) w'
           /\ is_professional stored = status
           /\ professional_status_updated_at stored = SqlTime (clock w)).
Proof.
  simpl. repeat split.
  intros uid w G. pose proof (fetch_fixed _ _ _ G) as [P _].
  rewrite update_commit by exact P.
  eexists. eexists. split; [reflexivity|].
  split; [apply get_by_id_after_update with (u := self); auto|].
  split; reflexivity.
Qed.

Lemma update_professional_status_effect_witness :
  exists w' stored,
    (session_add (update_professional_status (alice crypt_hash) true) ;;
     session_commit ;; ret tt) (world_of [alice crypt_hash]) = Done (Ok tt) w'
    /\ get_by_id 7%N w' = Done (Ok (Some stored)) w'
    /\ is_professional stored = true
    /\ professional_status_updated_at stored = SqlTime 1000.
Proof.
  apply (proj2 (proj2 (proj2
           (update_professional_status_effect (alice crypt_hash) true)))
           7%N (world_of [alice crypt_hash])).
  reflexivity.
Defined.

(** ** Registration *)

Lemma User_init_ok ucd e n h u :
  User_init ucd e n h = Ok u ->
  u = mkUser transient_id n e ANONYMOUS false SqlNull SqlNull 0 false None
        false h
  /\ validate_nickname ucd n = Ok n
  /\ validate_password ucd h = Ok h.
Proof.
  unfold User_init, assign_nickname, assign_hashed_password, bind_result.
  destruct (validate_nickname ucd n) as [n'|] eqn:N; [|discriminate].
  simpl.
  destruct (validate_password ucd h) as [h'|] eqn:H; [|discriminate].
  apply validate_password_returns in H. subst h'.
  assert (n' = n).
  { revert N. unfold validate_nickname.
    case_ifs; intros N; inversion N; reflexivity. }
  subst n'. intros E. inversion E. auto.
Qed.

Lemma User_init_rejects_hash ucd e n h x :
  validate_password ucd h = Raise x ->
  exists msg, User_init ucd e n h = Raise (ValueError msg).
Proof.
  intros H. unfold User_init, assign_nickname, assign_hashed_password,
    bind_result.
  destruct (validate_nickname ucd n) as [n'|y] eqn:N.
  - simpl. rewrite H. destruct (validate_password_raises _ _ _ H) as [msg ->].
    eauto.
  - destruct (validate_nickname_raises _ _ _ N) as [msg ->]. eauto.
Qed.

Section Registration.
Variable env : Env.

(** The nickname loop only consumes the generator: it ends with a nickname no
    stored account has, or is still running when the fuel is spent. *)
Lemma unique_nickname_run fuel : forall n w,
  pending (session w) = [] ->
  unique_nickname env fuel n w = OutOfFuel
  \/ exists n' k,
       unique_nickname env fuel n w =
       Done (Ok n')
         (mkWorld (session w) (clock w) k (token_calls w) (uuid_calls w)
            (outbox w))
       /\ hd_error (filter (fun r => pystr_eqb (nickname r) n')
                      (rows (session w))) = None.
Proof.
  induction fuel as [|fuel IH]; intros n w P; [now left|].
  remember (unique_nickname env (S fuel) n w) as c eqn:C.
  simpl in C. unfold bind at 1 in C. unfold get_by_nickname in C.
  rewrite fetch_clean in C by exact P.
  destruct (hd_error _) eqn:H.
  - unfold bind, call_generate_nickname in C. subst c.
    match goal with
    | |- unique_nickname env fuel ?m ?w1 = _ \/ _ =>
        destruct (IH m w1 P) as [O|[n' [k [R F]]]]
    end.
    + now left.
    + right. exists n', k. simpl in R, F. split; [exact R | exact F].
  - right. exists n, (nickname_calls w). split; [|exact H].
    subst c. unfold ret. destruct w; reflexivity.
Qed.

(** Every way a [create] call can end on a session with nothing staged. *)
Lemma create_cases fuel user_data w :
  pending (session w) = [] ->
  match UserCreate env user_data with
  | Raise _ => create env fuel user_data w = Done (Ok None) w
  | Ok vd =>
      match hd_error (filter (fun r => pystr_eqb (email r) (vd_email vd))
                        (rows (session w))) with
      | Some _ => create env fuel user_data w = Done (Ok None) w
      | None =>
          create env fuel user_data w = OutOfFuel
          \/ (exists w',
                 create env fuel user_data w = Done (Ok None) w'
                 /\ rows (session w') = rows (session w)
                 /\ writes (session w') = writes (session w)
                 /\ pending (session w') = []
                 /\ outbox w' = outbox w)
          \/ (exists u w',
                 create env fuel user_data w = Done (Ok (Some u)) w'
                 /\ email u = vd_email vd
                 /\ hashed_password u = hash_password env (vd_password vd)
                 /\ validate_password (unicode env) (hashed_password u)
                    = Ok (hashed_password u)
                 /\ rows (session w') = rows (session w) ++ [u]
                 /\ writes (session w') = S (writes (session w))
                 /\ pending (session w') = []
                 /\ outbox w' = outbox w ++ [u])
          \/ (exists u w' e,
                 create env fuel user_data w = Done (Ok None) w'
                 /\ send_email env u = Raise e
                 /\ email u = vd_email vd
                 /\ hashed_password u = hash_password env (vd_password vd)
                 /\ validate_password (unicode env) (hashed_password u)
                    = Ok (hashed_password u)
                 /\ violates_unique u (rows (session w)) = false
                 /\ rows (session w') = rows (session w) ++ [u]
                 /\ writes (session w') = S (writes (session w))
                 /\ pending (session w') = []
                 /\ outbox w' = outbox w)
      end
  end.
Proof.
  intros P. remember (create env fuel user_data w) as c eqn:C.
  unfold create, try_except in C.
  destruct (UserCreate env user_data) as [vd|e] eqn:U.
  2:{ unfold bind at 1 in C. unfold lift in C. exact C. }
  unfold bind at 1 in C. unfold lift in C.
  unfold bind at 1 in C. unfold get_by_email in C.
  rewrite fetch_clean in C by exact P.
  destruct (hd_error _) eqn:H; [exact C|].
  unfold bind at 1 in C. unfold call_generate_nickname in C.
  unfold bind at 1 in C.
  match type of C with
  | context [unique_nickname env fuel ?m ?w1] =>
      destruct (unique_nickname_run fuel m w1 P) as [O|[n' [k [R F]]]]
  end.
  - left. now rewrite O in C.
  - right. rewrite R in C. simpl session in C. simpl clock in C.
    simpl outbox in C.
    unfold bind at 1 in C. unfold lift in C.
    destruct (User_init _ _ _ _) as [u0|x] eqn:I.
    + apply User_init_ok in I. destruct I as [I [_ VP]].
      unfold bind at 1 in C. unfold call_generate_verification_token in C.
      unfold bind at 1 in C.
      unfold session_add_new, call_uuid4, stage, ret, bind,
        session_commit, session_flush, send_verification_email in C.
      simpl in C. rewrite P in C. simpl in C.
      destruct (violates_unique _ _) eqn:V; simpl in C.
      * left. eexists. split; [exact C|]. simpl. auto.
      * subst u0. simpl in C, V.
        destruct (send_email env _) as [[]|e] eqn:M.
        -- right. left. eexists. eexists. split; [exact C|]. simpl.
           split; [reflexivity|]. split; [reflexivity|].
           split; [exact VP|]. repeat split.
        -- right. right. eexists. eexists. exists e.
           split; [exact C|]. split; [exact M|]. simpl.
           split; [reflexivity|]. split; [reflexivity|].
           split; [exact VP|]. split; [exact V|]. repeat split.
    + left. eexists. split; [exact C|]. simpl. auto.
Qed.
End Registration.

Lemma first_of_appended f (u : User) table :
  f u = true -> exists x, hd_error (filter f (table ++ [u])) = Some x.
Proof.
  intros F. rewrite filter_app. simpl. rewrite F.
  destruct (filter f table) as [|x t]; simpl; eauto.
Qed.

Lemma create_on_taken_email (env : Env) fuel user_data vd u w :
  UserCreate env user_data = Ok vd ->
  get_by_email (vd_email vd) w = Done (Ok (Some u)) w ->
  create env fuel user_data w = Done (Ok None) w.
Proof.
  intros U G. apply fetch_fixed in G. destruct G as [P G].
  pose proof (create_cases env fuel user_data w P) as C.
  rewrite U in C. now rewrite <- G in C.
Qed.

(** C7: a registration whose (validated) email is the email of a stored
    account returns [None] and leaves the world as it was: no row, nothing
    staged, no email sent; so does one the schema rejects.  And of two
    registrations with one email, once the
    first has returned an account (which no stored account had the email of,
    and which is now the last row), every later one returns [None] and
    changes nothing. *)
Theorem create_duplicate_email (env : Env) :
  (forall fuel user_data vd u w,
      UserCreate env user_data = Ok vd ->
      get_by_email (vd_email vd) w = Done (Ok (Some u)) w ->
      create env fuel user_data w = Done (Ok None) w)
  /\ (forall fuel user_data e w,
         UserCreate env user_data = Raise e ->
         create env fuel user_data w = Done (Ok None) w)
  /\ (forall fuel user_data u w w',
         pending (session w) = [] ->
         create env fuel user_data w = Done (Ok (Some u)) w' ->
         (exists vd, UserCreate env user_data = Ok vd /\ email u = vd_email vd)
         /\ get_by_email (email u) w = Done (Ok None) w
         /\ rows (session w') = rows (session w) ++ [u]
         /\ pending (session w') = []
         /\ forall fuel' user_data' vd',
              UserCreate env user_data' = Ok vd' ->
              vd_email vd' = email u ->
              create env fuel' user_data' w' = Done (Ok None) w').
Proof.
  split; [apply create_on_taken_email|].
  split.
  { intros fuel user_data e w U. unfold create, try_except, bind, lift.
    now rewrite U. }
  intros fuel user_data u w w' P C.
  pose proof (create_cases env fuel user_data w P) as K.
  destruct (UserCreate env user_data) as [vd|e] eqn:U; [|congruence].
  destruct (hd_error _) eqn:H; [congruence|].
  destruct K as [K|[[w1 [K _]]|[[u1 [w1 [K [E [_ [_ [R [_ [P1 _]]]]]]]]]
                              |[u1 [w1 [e [K _]]]]]]];
    try congruence.
  rewrite K in C. inversion C; subst u1 w1; clear C.
  split; [eauto|].
  split; [unfold get_by_email; rewrite fetch_clean by exact P;
          now rewrite E, H|].
  split; [exact R|]. split; [exact P1|].
  intros fuel' user_data' vd' U' E'.
  destruct (first_of_appended (fun r => pystr_eqb (email r) (vd_email vd')) u
              (rows (session w))) as [x X].
  { rewrite E'. apply pystr_eqb_refl. }
  apply create_on_taken_email with (vd := vd') (u := x); [exact U'|].
  unfold get_by_email. rewrite fetch_clean by exact P1. now rewrite R, X.
Qed.

Lemma create_duplicate_email_witness :
  create crypt_env 3 alice_request (world_of [alice crypt_hash])
  = Done (Ok None) (world_of [alice crypt_hash])
  /\ create crypt_env 3 [] (world_of [alice crypt_hash])
     = Done (Ok None) (world_of [alice crypt_hash])
  /\ create crypt_env 3 alice_request (world_of [])
     = Done (Ok (Some registered_alice))
         (world_after (create crypt_env 3 alice_request (world_of [])))
  /\ create crypt_env 3 alice_request
       (world_after (create crypt_env 3 alice_request (world_of [])))
     = Done (Ok None)
         (world_after (create crypt_env 3 alice_request (world_of []))).
Proof.
  destruct (create_duplicate_email crypt_env) as [L [V R]].
  split; [|split; [|split]].
  - apply (L 3%nat alice_request
             (mkValidated (str "alice@example.com") alice_password)
             (alice crypt_hash) (world_of [alice crypt_hash]));
      reflexivity.
  - apply (V 3%nat [] ValidationError (world_of [alice crypt_hash])).
    reflexivity.
  - reflexivity.
  - destruct (R 3%nat alice_request registered_alice (world_of [])
                (world_after (create crypt_env 3 alice_request (world_of [])))
                eq_refl eq_refl) as [_ [_ [_ [_ D]]]].
    apply (D 3%nat alice_request
             (mkValidated (str "alice@example.com") alice_password));
      reflexivity.
Defined.

(** ** The validator on [hashed_password] *)

(** C10: the string [validate_password] checks is the output of
    [hash_password], whatever the plaintext was: assigning the hash to
    [hashed_password] succeeds or raises according to the first rule the hash
    breaks.  When the hash breaks a rule, the assignment raises that rule's
    [ValueError], the [User] constructor raises a [ValueError],
    [reset_password] on an existing account returns [False] and changes
    nothing, and [create] creates no account. *)
Theorem hashed_password_validator_checks_the_hash (env : Env) (plain : pystr) :
  (forall self,
      assign_hashed_password (unicode env) self (hash_password env plain) =
      match first_failing (unicode env) (hash_password env plain) with
      | None => Ok (set_hashed_password (hash_password env plain) self)
      | Some rule => Raise (ValueError (rule_reason rule))
      end)
  /\ (forall rule,
         first_failing (unicode env) (hash_password env plain) = Some rule ->
         (forall email_ nickname_,
             exists msg,
               User_init (unicode env) email_ nickname_
                 (hash_password env plain) = Raise (ValueError msg))
         /\ (forall uid u w,
                get_by_id uid w = Done (Ok (Some u)) w ->
                reset_password env uid plain w = Done (Ok false) w)
         /\ (forall fuel user_data vd w,
                pending (session w) = [] ->
                UserCreate env user_data = Ok vd ->
                vd_password vd = plain ->
                create env fuel user_data w = OutOfFuel
                \/ exists w',
                     create env fuel user_data w = Done (Ok None) w'
                     /\ rows (session w') = rows (session w)
                     /\ writes (session w') = writes (session w)
                     /\ outbox w' = outbox w)).
Proof.
  pose proof (validate_password_first_failing (unicode env)
                (hash_password env plain)) as V.
  split.
  - intros self. unfold assign_hashed_password, bind_result. rewrite V.
    now destruct (first_failing _ _).
  - intros rule F. rewrite F in V. split; [|split].
    + intros. eapply User_init_rejects_hash. exact V.
    + intros uid u w G.
      now rewrite (reset_password_found env uid plain u w G), V.
    + intros fuel user_data vd w P U E.
      pose proof (create_cases env fuel user_data w P) as K.
      rewrite U in K.
      destruct (hd_error _).
      * right. exists w. auto.
      * destruct K as [K|[[w1 [K [R [W [_ O]]]]]|
                          [[u1 [w1 [_ [_ [HP [VP _]]]]]]
                          |[u1 [w1 [e [_ [_ [_ [HP [VP _]]]]]]]]]]].
        -- now left.
        -- right. exists w1. auto.
        -- rewrite HP, E, V in VP. discriminate.
        -- rewrite HP, E, V in VP. discriminate.
Qed.

Lemma hashed_password_validator_checks_the_hash_witness :
  validate_password ucd_latin1 alice_password = Ok alice_password
  /\ (exists msg,
         User_init ucd_latin1 (str "alice@example.com") (str "guest")
           (hex_hash alice_password) = Raise (ValueError msg))
  /\ reset_password hex_env 7%N alice_password (world_of [alice hex_hash])
     = Done (Ok false) (world_of [alice hex_hash])
  /\ (create hex_env 3 alice_request (world_of []) = OutOfFuel
      \/ exists w',
           create hex_env 3 alice_request (world_of []) = Done (Ok None) w'
           /\ rows (session w') = []
           /\ writes (session w') = 0%nat
           /\ outbox w' = []).
Proof.
  destruct (proj2 (hashed_password_validator_checks_the_hash hex_env
                     alice_password) RuleUppercase eq_refl) as [A [B C]].
  split; [reflexivity|]. split; [apply A|]. split.
  - apply (B 7%N (alice hex_hash) (world_of [alice hex_hash])). reflexivity.
  - apply (C 3%nat alice_request
             (mkValidated (str "alice@example.com") alice_password)
             (world_of [])); reflexivity.
Defined.

(** * Further properties of the service *)

(** ** Login: refusals and the failure counter *)

(** X1: [login_user] on an email no account has, or on the email of a locked
    account, returns no account whatever the password, and leaves the world
    as it found it.  The email is a text the store takes as a query
    parameter. *)
Theorem login_refused_without_change
  (env : Env) (email_ password : pystr) (w : World) :
  sendable email_ = true ->
  (get_by_email email_ w = Done (Ok None) w ->
   login_user env email_ password w = Done (Ok None) w)
  /\ (forall u,
         get_by_email email_ w = Done (Ok (Some u)) w ->
         is_locked u = true ->
         login_user env email_ password w = Done (Ok None) w).
Proof.
  intros _. split.
  - intros G. unfold login_user. unfold bind at 1. now rewrite G.
  - intros u G L. rewrite (login_user_found env email_ password u w G), L.
    now destruct (negb (email_verified u)).
Qed.

Lemma login_refused_without_change_witness :
  login_user crypt_env (str "carol@example.com") alice_password
    (world_of [alice crypt_hash]) = Done (Ok None) (world_of [alice crypt_hash])
  /\ login_user crypt_env (str "alice@example.com") alice_password
       (world_of [verify_email (locked_alice crypt_hash)])
     = Done (Ok None) (world_of [verify_email (locked_alice crypt_hash)]).
Proof.
  split.
  - apply (proj1 (login_refused_without_change crypt_env
                    (str "carol@example.com") alice_password
                    (world_of [alice crypt_hash]) eq_refl)).
    reflexivity.
  - apply (proj2 (login_refused_without_change crypt_env
                    (str "alice@example.com") alice_password
                    (world_of [verify_email (locked_alice crypt_hash)])
                    eq_refl)
             (verify_email (locked_alice crypt_hash)));
      reflexivity.
Defined.

(** X2: a password that does not verify, on a verified and unlocked account
    whose counter is below the largest value its [Integer] column holds: the
    stored counter goes up by exactly one, the account is locked exactly
    when the new count has reached [max_login_attempts], and its identifier,
    email, nickname, password hash and verification flag are as before. *)
Theorem login_wrong_password_counts
  (env : Env) (email_ password : pystr) (u : User) (w : World) :
  get_by_email email_ w = Done (Ok (Some u)) w ->
  email_verified u = true ->
  is_locked u = false ->
  failed_login_attempts u < int4_max ->
  verify_password env password (hashed_password u) = false ->
  exists w' u',
    login_user env email_ password w = Done (Ok None) w'
    /\ get_by_email email_ w' = Done (Ok (Some u')) w'
    /\ failed_login_attempts u' = failed_login_attempts u + 1
    /\ is_locked u' =
       (max_login_attempts env <=? failed_login_attempts u + 1)
    /\ id u' = id u /\ email u' = email u /\ nickname u' = nickname u
    /\ hashed_password u' = hashed_password u
    /\ email_verified u' = true
    /\ rows (session w') = update_row u' (rows (session w))
    /\ pending (session w') = [].
Proof.
  intros G V L _ W.
  rewrite (login_user_found env email_ password u w G), V, L, W. simpl.
  eexists. eexists. split; [reflexivity|].
  split; [apply get_by_email_after_update with (u := u);
          [exact G | |]; destruct (_ >=? _); reflexivity|].
  rewrite Z.geb_leb.
  destruct (max_login_attempts env <=? failed_login_attempts u + 1);
    simpl; repeat split; auto.
Qed.

Lemma login_wrong_password_counts_witness :
  exists w' u',
    login_user crypt_env (str "alice@example.com") (str "guess")
      (world_of [set_failed_login_attempts 2 (verify_email (alice crypt_hash))])
    = Done (Ok None) w'
    /\ get_by_email (str "alice@example.com") w' = Done (Ok (Some u')) w'
    /\ failed_login_attempts u' = 3
    /\ is_locked u' = false.
Proof.
  destruct (login_wrong_password_counts crypt_env
              (str "alice@example.com") (str "guess")
              (set_failed_login_attempts 2 (verify_email (alice crypt_hash)))
              (world_of [set_failed_login_attempts 2
                           (verify_email (alice crypt_hash))])
              eq_refl eq_refl eq_refl eq_refl eq_refl)
    as [w' [u' [H1 [H2 [H3 [H4 _]]]]]].
  exists w', u'. repeat split; assumption.
Defined.

Lemma login_wrong_step
  (env : Env) (email_ password : pystr) (u : User) (w : World) :
  get_by_email email_ w = Done (Ok (Some u)) w ->
  email_verified u = true ->
  is_locked u = false ->
  verify_password env password (hashed_password u) = false ->
  exists w' u',
    login_user env email_ password w = Done (Ok None) w'
    /\ get_by_email email_ w' = Done (Ok (Some u')) w'
    /\ failed_login_attempts u' = failed_login_attempts u + 1
    /\ is_locked u' =
       (max_login_attempts env <=? failed_login_attempts u + 1)
    /\ hashed_password u' = hashed_password u
    /\ email_verified u' = true.
Proof.
  intros G V L W.
  rewrite (login_user_found env email_ password u w G), V, L, W. simpl.
  eexists. eexists. split; [reflexivity|].
  split; [apply get_by_email_after_update with (u := u);
          [exact G | |]; destruct (_ >=? _); reflexivity|].
  rewrite Z.geb_leb.
  destruct (max_login_attempts env <=? failed_login_attempts u + 1);
    simpl; repeat split; auto.
Qed.

Lemma login_attempts_locked (env : Env) email_ passwords u w :
  get_by_email email_ w = Done (Ok (Some u)) w ->
  is_locked u = true ->
  login_attempts env email_ passwords w =
  Done (Ok (map (fun _ => None) passwords)) w.
Proof.
  intros G L. induction passwords as [|p ps IH]; [reflexivity|].
  simpl. unfold bind at 1.
  rewrite (login_user_found env email_ p u w G), L.
  destruct (negb (email_verified u)); unfold bind; now rewrite IH.
Qed.

(** X3: passwords that do not verify, tried one after the other on a
    verified, unlocked account whose counter is below [max_login_attempts]:
    every attempt returns no account, the stored counter ends at the smaller
    of "counter plus number of attempts" and [max_login_attempts], and the
    account is locked exactly when that many attempts reached the maximum.
    Attempts after the lock count for nothing. *)
Theorem lockout_after_repeated_failures
  (env : Env) (email_ : pystr) (passwords : list pystr) :
  forall (u : User) (w : World),
  get_by_email email_ w = Done (Ok (Some u)) w ->
  email_verified u = true ->
  is_locked u = false ->
  failed_login_attempts u < max_login_attempts env ->
  (forall p, In p passwords ->
             verify_password env p (hashed_password u) = false) ->
  exists w' u',
    login_attempts env email_ passwords w =
    Done (Ok (map (fun _ => None) passwords)) w'
    /\ get_by_email email_ w' = Done (Ok (Some u')) w'
    /\ failed_login_attempts u' =
       Z.min (failed_login_attempts u + Z.of_nat (List.length passwords))
         (max_login_attempts env)
    /\ is_locked u' =
       (max_login_attempts env
        <=? failed_login_attempts u + Z.of_nat (List.length passwords))
    /\ hashed_password u' = hashed_password u.
Proof.
  induction passwords as [|p ps IH]; intros u w G V L C W.
  - exists w, u. simpl. split; [reflexivity|]. split; [exact G|].
    rewrite Z.add_0_r. split; [lia|]. split; [|reflexivity].
    rewrite L. symmetry. apply Z.leb_gt. exact C.
  - destruct (login_wrong_step env email_ p u w G V L (W p (or_introl eq_refl)))
      as [w1 [u1 [R [G1 [F1 [L1 [H1 V1]]]]]]].
    cbn [login_attempts]. unfold bind at 1. rewrite R.
    cbv beta iota. unfold bind.
    cbn [List.length map]. rewrite Nat2Z.inj_succ.
    destruct (Z.leb_spec (max_login_attempts env)
                (failed_login_attempts u + 1)) as [M|M].
    + rewrite (login_attempts_locked env email_ ps u1 w1 G1 L1).
      exists w1, u1. split; [reflexivity|]. split; [exact G1|].
      split; [lia|]. split; [|exact H1].
      rewrite L1. symmetry. apply Z.leb_le. lia.
    + destruct (IH u1 w1 G1 V1 L1) as [w' [u' [R' [G' [F' [L' H']]]]]].
      * lia.
      * intros q Q. rewrite H1. apply W. now right.
      * rewrite R'.
        exists w', u'. split; [reflexivity|]. split; [exact G'|].
        split; [rewrite F', F1; f_equal; lia|].
        split; [rewrite L', F1; f_equal; lia | congruence].
Qed.

Lemma lockout_after_repeated_failures_witness :
  exists w' u',
    login_attempts crypt_env (str "alice@example.com")
      [str "a"; str "b"; str "c"; str "d"; str "e"; str "f"; str "g"]
      (world_of [verify_email (alice crypt_hash)])
    = Done (Ok [None; None; None; None; None; None; None]) w'
    /\ get_by_email (str "alice@example.com") w' = Done (Ok (Some u')) w'
    /\ failed_login_attempts u' = 5
    /\ is_locked u' = true.
Proof.
  destruct (lockout_after_repeated_failures crypt_env
              (str "alice@example.com")
              [str "a"; str "b"; str "c"; str "d"; str "e"; str "f"; str "g"]
              (verify_email (alice crypt_hash))
              (world_of [verify_email (alice crypt_hash)])
              eq_refl eq_refl eq_refl eq_refl)
    as [w' [u' [H1 [H2 [H3 [H4 _]]]]]].
  - intros p [<-|[<-|[<-|[<-|[<-|[<-|[<-|[]]]]]]]]; reflexivity.
  - exists w', u'. repeat split; assumption.
Defined.

(** ** Unlocking, resetting, and logging in again *)

Lemma persist_found email_ u R w :
  get_by_email email_ w = Done (Ok (Some u)) w ->
  id R = id u -> email R = email u ->
  exists w',
    persist R w = Done (Ok tt) w'
    /\ get_by_email email_ w' = Done (Ok (Some (resolve (clock w) R))) w'
    /\ rows (session w') = update_row (resolve (clock w) R) (rows (session w))
    /\ clock w' = clock w.
Proof.
  intros G I E. pose proof (fetch_fixed _ _ _ G) as [P _].
  unfold persist. rewrite update_commit by exact P.
  eexists. split; [reflexivity|].
  split; [apply get_by_email_after_update with (u := u); auto|].
  split; reflexivity.
Qed.

(** X4: [unlock_account] clears the lock and nothing else.  An account whose
    counter stands at [max_login_attempts - 1] or more (and below the
    largest value its [Integer] column holds), unlocked and stored, is locked
    again by the first password that does not verify, with the counter one
    higher. *)
Theorem unlock_keeps_the_counter
  (env : Env) (email_ password : pystr) (u : User) (w : World) :
  get_by_email email_ w = Done (Ok (Some u)) w ->
  email_verified u = true ->
  max_login_attempts env - 1 <= failed_login_attempts u ->
  failed_login_attempts u < int4_max ->
  verify_password env password (hashed_password u) = false ->
  exists w1 w2 u1 u2,
    persist (unlock_account u) w = Done (Ok tt) w1
    /\ get_by_email email_ w1 = Done (Ok (Some u1)) w1
    /\ is_locked u1 = false
    /\ failed_login_attempts u1 = failed_login_attempts u
    /\ login_user env email_ password w1 = Done (Ok None) w2
    /\ get_by_email email_ w2 = Done (Ok (Some u2)) w2
    /\ is_locked u2 = true
    /\ failed_login_attempts u2 = failed_login_attempts u + 1.
Proof.
  intros G V C _ W.
  destruct (persist_found email_ u (unlock_account u) w G eq_refl eq_refl)
    as [w1 [P1 [G1 _]]].
  destruct (login_wrong_step env email_ password _ w1 G1 V eq_refl W)
    as [w2 [u2 [R [G2 [F2 [L2 _]]]]]].
  exists w1, w2, (resolve (clock w) (unlock_account u)), u2.
  split; [exact P1|]. split; [exact G1|].
  split; [reflexivity|]. split; [reflexivity|].
  split; [exact R|]. split; [exact G2|].
  split; [|exact F2].
  rewrite L2. apply Z.leb_le. simpl. lia.
Qed.

Lemma unlock_keeps_the_counter_witness :
  exists w1 w2 u1 u2,
    persist (unlock_account
               (set_failed_login_attempts 5
                  (verify_email (locked_alice crypt_hash))))
      (world_of [set_failed_login_attempts 5
                   (verify_email (locked_alice crypt_hash))])
    = Done (Ok tt) w1
    /\ get_by_email (str "alice@example.com") w1 = Done (Ok (Some u1)) w1
    /\ is_locked u1 = false
    /\ failed_login_attempts u1 = 5
    /\ login_user crypt_env (str "alice@example.com") (str "guess") w1
       = Done (Ok None) w2
    /\ get_by_email (str "alice@example.com") w2 = Done (Ok (Some u2)) w2
    /\ is_locked u2 = true
    /\ failed_login_attempts u2 = 5 + 1.
Proof.
  apply (unlock_keeps_the_counter crypt_env (str "alice@example.com")
           (str "guess")
           (set_failed_login_attempts 5
              (verify_email (locked_alice crypt_hash)))
           (world_of [set_failed_login_attempts 5
                        (verify_email (locked_alice crypt_hash))]));
    [reflexivity | reflexivity | simpl; lia | reflexivity | reflexivity].
Defined.

(** X5: [reset_password] reopens an account.  On a verified account, locked
    or not and whatever its counter, a reset with a new password whose hash
    the validator accepts and the [hashed_password] column can hold (a text
    the store takes, of at most 255 characters), followed by a login with
    that new password, returns the account, unlocked and with the counter at
    0 (the hasher verifying its own output). *)
Theorem reset_then_login
  (env : Env) (new_password : pystr) (u : User) (w : World) :
  get_by_id (id u) w = Done (Ok (Some u)) w ->
  get_by_email (email u) w = Done (Ok (Some u)) w ->
  email_verified u = true ->
  validate_password (unicode env) (hash_password env new_password)
  = Ok (hash_password env new_password) ->
  sendable (hash_password env new_password) = true ->
  (List.length (hash_password env new_password) <= hashed_password_width)%nat ->
  verify_password env new_password (hash_password env new_password) = true ->
  exists w1 w2 u2,
    reset_password env (id u) new_password w = Done (Ok true) w1
    /\ login_user env (email u) new_password w1 = Done (Ok (Some u2)) w2
    /\ id u2 = id u
    /\ is_locked u2 = false
    /\ failed_login_attempts u2 = 0
    /\ hashed_password u2 = hash_password env new_password.
Proof.
  intros GI GE V A _ _ H.
  rewrite (reset_password_found env (id u) new_password u w GI), A. simpl.
  eexists.
  match goal with
  | |- exists w2 u2, Done _ ?w1 = _ /\ _ =>
      assert (G1 : get_by_email (email u) w1 =
                   Done (Ok (Some (resolve (clock w)
                     (set_is_locked false
                        (set_failed_login_attempts 0
                           (set_hashed_password
                              (hash_password env new_password) u)))))) w1)
        by (apply get_by_email_after_update with (u := u); auto)
  end.
  rewrite (login_user_found env (email u) new_password _ _ G1).
  simpl. rewrite V, H. simpl.
  eexists. eexists. split; [reflexivity|]. split; [reflexivity|].
  repeat split.
Qed.

Lemma reset_then_login_witness :
  exists w1 w2 u2,
    reset_password crypt_env 7%N (str "Fresh#2025")
      (world_of [verify_email (locked_alice crypt_hash)]) = Done (Ok true) w1
    /\ login_user crypt_env (str "alice@example.com") (str "Fresh#2025") w1
       = Done (Ok (Some u2)) w2
    /\ id u2 = 7%N
    /\ is_locked u2 = false
    /\ failed_login_attempts u2 = 0
    /\ hashed_password u2 = crypt_hash (str "Fresh#2025").
Proof.
  apply (reset_then_login crypt_env (str "Fresh#2025")
           (verify_email (locked_alice crypt_hash))
           (world_of [verify_email (locked_alice crypt_hash)]));
    try reflexivity.
  apply Nat.leb_le. reflexivity.
Defined.

(** ** The table's constraints *)

Lemma NoDup_map_eq {A B} (f : A -> B) (l : list A) a b :
  NoDup (map f l) -> In a l -> In b l -> f a = f b -> a = b.
Proof.
  induction l as [|x l IH]; simpl; intros N Ha Hb E; [contradiction|].
  inversion N as [|? ? X N']; subst.
  destruct Ha as [->|Ha], Hb as [->|Hb]; auto.
  - elim X. rewrite E. now apply in_map.
  - elim X. rewrite <- E. now apply in_map.
Qed.

Lemma NoDup_snoc {A} (l : list A) a :
  NoDup l -> ~ In a l -> NoDup (l ++ [a]).
Proof.
  induction l as [|x l IH]; simpl; intros N H.
  - constructor; [tauto | constructor].
  - inversion N as [|? ? X N']; subst. constructor.
    + rewrite in_app_iff. simpl. intros [I|[E|[]]]; [tauto|].
      apply H. now left.
    + apply IH; tauto.
Qed.

Lemma delete_row_keeps_unique {B} (column : User -> B) u table :
  NoDup (map column table) -> NoDup (map column (delete_row u table)).
Proof.
  unfold delete_row. intros N.
  induction table as [|x t IH]; [constructor|].
  apply NoDup_cons_iff in N. destruct N as [X N]. cbn [filter].
  destruct (negb (N.eqb (id x) (id u))); [|now apply IH].
  cbn [map]. apply NoDup_cons; [|now apply IH].
  contradict X. apply in_map_iff in X. destruct X as [y [E Y]].
  apply in_map_iff. exists y. split; [exact E|].
  apply filter_In in Y. tauto.
Qed.

Lemma first_unique {B} (f : User -> B) (g : User -> bool) table u :
  NoDup (map f table) ->
  In u table ->
  (forall r, g r = true <-> f r = f u) ->
  hd_error (filter g table) = Some u.
Proof.
  intros N I G. induction table as [|x t IH]; simpl in *; [contradiction|].
  inversion N as [|? ? X N']; subst.
  destruct (g x) eqn:E.
  - simpl. f_equal. apply G in E.
    apply (NoDup_map_eq f (x :: t)); simpl; auto.
  - destruct I as [->|I].
    + assert (g u = true) by now apply G. congruence.
    + auto.
Qed.

Lemma first_absent (g : User -> bool) table :
  (forall r, In r table -> g r = false) ->
  hd_error (filter g table) = None.
Proof.
  induction table as [|x t IH]; simpl; intros H; [reflexivity|].
  rewrite (H x) by now left. apply IH. intros r I. apply H. now right.
Qed.

Lemma map_update_row {B} (f : User -> B) R u table :
  NoDup (map id table) ->
  In u table ->
  id R = id u ->
  f R = f u ->
  map f (update_row R table) = map f table.
Proof.
  intros N I E F. unfold update_row. rewrite map_map.
  apply map_ext_in. intros r Hr.
  destruct (N.eqb (id r) (id R)) eqn:Q; [|reflexivity].
  apply N.eqb_eq in Q.
  assert (r = u) by (apply (NoDup_map_eq id table); congruence).
  now subst.
Qed.

Lemma table_ok_update_row R u table :
  table_ok table ->
  In u table ->
  id R = id u -> nickname R = nickname u -> email R = email u ->
  table_ok (update_row R table).
Proof.
  intros [Ni [Nn Ne]] I Ei En Ee. unfold table_ok.
  rewrite !(map_update_row _ R u table) by auto. auto.
Qed.

Lemma table_ok_delete_row u table :
  table_ok table -> table_ok (delete_row u table).
Proof.
  intros [Ni [Nn Ne]]. unfold table_ok.
  repeat split; now apply delete_row_keeps_unique.
Qed.

Lemma violates_unique_false u table :
  violates_unique u table = false ->
  forall r, In r table ->
            id r <> id u /\ nickname r <> nickname u /\ email r <> email u.
Proof.
  unfold violates_unique. intros V r I.
  destruct (existsb _ table) eqn:E; [discriminate|].
  assert (H : forall x, In x table ->
                N.eqb (id x) (id u) || pystr_eqb (nickname x) (nickname u)
                || pystr_eqb (email x) (email u) = false).
  { intros x Hx. destruct (_ || _) eqn:Q; [|reflexivity].
    assert (existsb (fun r => N.eqb (id r) (id u)
                              || pystr_eqb (nickname r) (nickname u)
                              || pystr_eqb (email r) (email u)) table = true)
      by (apply existsb_exists; eauto).
    congruence. }
  specialize (H r I). rewrite !orb_false_iff in H. destruct H as [[H1 H2] H3].
  repeat split; intros Q.
  - rewrite Q, N.eqb_refl in H1. discriminate.
  - rewrite Q, pystr_eqb_refl in H2. discriminate.
  - rewrite Q, pystr_eqb_refl in H3. discriminate.
Qed.

Lemma table_ok_insert u table :
  table_ok table ->
  violates_unique u table = false ->
  table_ok (table ++ [u]).
Proof.
  intros [Ni [Nn Ne]] V. pose proof (violates_unique_false u table V) as H.
  unfold table_ok. rewrite !map_app. simpl.
  repeat split; apply NoDup_snoc; auto;
    intros I; apply in_map_iff in I; destruct I as [r [E I]];
    destruct (H r I) as [H1 [H2 H3]]; congruence.
Qed.

(** X6: under the table's constraints, every stored account is the answer of
    [get_by_id] for its identifier, of [get_by_email] for its email and of
    [get_by_nickname] for its nickname; a lookup by an email that no stored
    account has (a text the store takes as a query parameter) answers
    [None]; and no lookup changes the world. *)
Theorem lookups_find_stored_accounts (w : World) :
  pending (session w) = [] ->
  table_ok (rows (session w)) ->
  (forall u,
      In u (rows (session w)) ->
      get_by_id (id u) w = Done (Ok (Some u)) w
      /\ get_by_email (email u) w = Done (Ok (Some u)) w
      /\ get_by_nickname (nickname u) w = Done (Ok (Some u)) w)
  /\ (forall email_,
         sendable email_ = true ->
         (forall r, In r (rows (session w)) -> email r <> email_) ->
         get_by_email email_ w = Done (Ok None) w).
Proof.
  intros P [Ni [Nn Ne]]. split.
  - intros u I. unfold get_by_id, get_by_email, get_by_nickname.
    rewrite !fetch_clean by exact P.
    rewrite (first_unique id _ _ u Ni I)
      by (intros r; apply N.eqb_eq).
    rewrite (first_unique email _ _ u Ne I)
      by (intros r; apply pystr_eqb_eq).
    rewrite (first_unique nickname _ _ u Nn I)
      by (intros r; apply pystr_eqb_eq).
    auto.
  - intros email_ _ H. unfold get_by_email. rewrite fetch_clean by exact P.
    rewrite first_absent; [reflexivity|].
    intros r I. destruct (pystr_eqb (email r) email_) eqn:E; [|reflexivity].
    apply pystr_eqb_eq in E. elim (H r I E).
Qed.

Lemma table_ok_two_accounts : table_ok [alice crypt_hash; bob crypt_hash].
Proof.
  unfold table_ok. simpl.
  repeat split; repeat constructor; simpl; intuition discriminate.
Defined.

Lemma lookups_find_stored_accounts_witness :
  (get_by_id 8%N (world_of [alice crypt_hash; bob crypt_hash])
   = Done (Ok (Some (bob crypt_hash)))
       (world_of [alice crypt_hash; bob crypt_hash])
   /\ get_by_email (str "bob@example.com")
        (world_of [alice crypt_hash; bob crypt_hash])
      = Done (Ok (Some (bob crypt_hash)))
          (world_of [alice crypt_hash; bob crypt_hash])
   /\ get_by_nickname (str "bob02")
        (world_of [alice crypt_hash; bob crypt_hash])
      = Done (Ok (Some (bob crypt_hash)))
          (world_of [alice crypt_hash; bob crypt_hash]))
  /\ get_by_email (str "carol@example.com")
       (world_of [alice crypt_hash; bob crypt_hash])
     = Done (Ok None) (world_of [alice crypt_hash; bob crypt_hash]).
Proof.
  destruct (lookups_find_stored_accounts
              (world_of [alice crypt_hash; bob crypt_hash])
              eq_refl table_ok_two_accounts) as [F A].
  split.
  - apply (F (bob crypt_hash)). simpl. auto.
  - apply A; [reflexivity|]. simpl. intros r [<-|[<-|[]]]; discriminate.
Defined.

(** ** Registration, in full *)

(** What a successful [create] has done. *)
Lemma create_success (env : Env) fuel user_data u w w' :
  pending (session w) = [] ->
  create env fuel user_data w = Done (Ok (Some u)) w' ->
  exists vd k,
    UserCreate env user_data = Ok vd
    /\ get_by_email (vd_email vd) w = Done (Ok None) w
    /\ u = mkUser (uuid4 env (uuid_calls w)) (nickname u) (vd_email vd)
             ANONYMOUS false SqlNull SqlNull 0 false
             (Some (generate_verification_token env (token_calls w))) false
             (hash_password env (vd_password vd))
    /\ nickname_taken (rows (session w)) (nickname u) = false
    /\ validate_nickname (unicode env) (nickname u) = Ok (nickname u)
    /\ validate_password (unicode env) (hashed_password u)
       = Ok (hashed_password u)
    /\ violates_unique u (rows (session w)) = false
    /\ w' = mkWorld
              (mkSession (rows (session w) ++ [u]) [] (S (writes (session w))))
              (clock w) k (S (token_calls w)) (S (uuid_calls w))
              (outbox w ++ [u]).
Proof.
  intros P C. unfold create, try_except in C.
  destruct (UserCreate env user_data) as [vd|e] eqn:U.
  2:{ unfold bind at 1 in C. unfold lift in C. discriminate. }
  unfold bind at 1 in C. unfold lift in C.
  unfold bind at 1 in C. unfold get_by_email in C.
  rewrite fetch_clean in C by exact P.
  destruct (hd_error _) eqn:H; [discriminate|].
  unfold bind at 1 in C. unfold call_generate_nickname in C.
  unfold bind at 1 in C.
  match type of C with
  | context [unique_nickname env fuel ?m ?w1] =>
      destruct (unique_nickname_run env fuel m w1 P) as [O|[n' [k [R F]]]]
  end.
  { rewrite O in C. discriminate. }
  rewrite R in C. simpl session in C. simpl clock in C. simpl outbox in C.
  simpl session in F.
  unfold bind at 1 in C. unfold lift in C.
  destruct (User_init _ _ _ _) as [u0|x] eqn:I; [|discriminate].
  apply User_init_ok in I. destruct I as [I [VN VP]].
  unfold bind at 1 in C. unfold call_generate_verification_token in C.
  unfold bind at 1 in C.
  unfold session_add_new, call_uuid4, stage, ret, bind,
    session_commit, session_flush, send_verification_email in C.
  simpl in C. rewrite P in C. simpl in C.
  destruct (violates_unique _ _) eqn:V; simpl in C; [discriminate|].
  subst u0. simpl in C, V.
  destruct (send_email env _) as [[]|e]; [|discriminate].
  inversion C; subst u; clear C.
  exists vd, k. simpl.
  split; [reflexivity|].
  split; [unfold get_by_email; rewrite fetch_clean by exact P; now rewrite H|].
  split; [reflexivity|].
  split.
  { unfold nickname_taken. destruct (existsb _ _) eqn:X; [|reflexivity].
    apply existsb_exists in X. destruct X as [r [Ir Er]].
    assert (Q : In r (filter (fun r => pystr_eqb (nickname r) n')
                        (rows (session w)))) by (apply filter_In; auto).
    destruct (filter (fun r => pystr_eqb (nickname r) n') (rows (session w)));
      [contradiction | discriminate]. }
  split; [exact VN|]. split; [exact VP|]. split; [exact V|].
  destruct w as [[r p n] c a1 a2 a3 o]. reflexivity.
Qed.

(** X7: what a successful [create] leaves.  The new account is the last row
    of the table, is the answer of all three lookups, carries the validated
    email, the hash of the supplied password, role [ANONYMOUS],
    [email_verified = False], [is_locked = False], a counter at 0 and a
    verification token; its nickname passes [validate_nickname] and was held
    by no stored account; one INSERT was written and the one verification
    email went to it. *)
Theorem create_registers_account
  (env : Env) (fuel : nat) (user_data : list (string * pystr))
  (u : User) (w w' : World) :
  pending (session w) = [] ->
  table_ok (rows (session w)) ->
  create env fuel user_data w = Done (Ok (Some u)) w' ->
  (exists vd,
      UserCreate env user_data = Ok vd
      /\ email u = vd_email vd
      /\ hashed_password u = hash_password env (vd_password vd))
  /\ role u = ANONYMOUS
  /\ email_verified u = false
  /\ is_locked u = false
  /\ failed_login_attempts u = 0
  /\ verification_token u <> None
  /\ validate_nickname (unicode env) (nickname u) = Ok (nickname u)
  /\ nickname_taken (rows (session w)) (nickname u) = false
  /\ rows (session w') = rows (session w) ++ [u]
  /\ writes (session w') = S (writes (session w))
  /\ outbox w' = outbox w ++ [u]
  /\ get_by_id (id u) w' = Done (Ok (Some u)) w'
  /\ get_by_email (email u) w' = Done (Ok (Some u)) w'
  /\ get_by_nickname (nickname u) w' = Done (Ok (Some u)) w'.
Proof.
  intros P T C.
  destruct (create_success env fuel user_data u w w' P C)
    as [vd [k [U [G [E [NT [VN [VP [V W]]]]]]]]].
  assert (T' : table_ok (rows (session w) ++ [u]))
    by now apply table_ok_insert.
  destruct T' as [Ni [Nn Ne]].
  assert (I : In u (rows (session w) ++ [u]))
    by (apply in_or_app; right; now left).
  assert (F : email u = vd_email vd
              /\ hashed_password u = hash_password env (vd_password vd)
              /\ role u = ANONYMOUS /\ email_verified u = false
              /\ is_locked u = false /\ failed_login_attempts u = 0
              /\ verification_token u <> None).
  { rewrite E. simpl. repeat split. discriminate. }
  destruct F as [F1 [F2 [F3 [F4 [F5 [F6 F7]]]]]].
  split; [exists vd; auto|].
  subst w'. simpl session. simpl outbox. simpl rows. simpl writes.
  repeat (split; [assumption || reflexivity|]).
  unfold get_by_id, get_by_email, get_by_nickname.
  rewrite !fetch_clean by reflexivity. simpl rows.
  rewrite (first_unique id _ _ u Ni I) by (intros r; apply N.eqb_eq).
  rewrite (first_unique email _ _ u Ne I) by (intros r; apply pystr_eqb_eq).
  rewrite (first_unique nickname _ _ u Nn I)
    by (intros r; apply pystr_eqb_eq).
  auto.
Qed.

Lemma table_ok_bob : table_ok [bob crypt_hash].
Proof.
  unfold table_ok. simpl.
  repeat split; repeat constructor; simpl; intuition discriminate.
Defined.

Lemma create_registers_account_witness :
  rows (session (world_after
                   (create crypt_env 3 alice_request
                      (world_of [bob crypt_hash]))))
  = [bob crypt_hash; registered_alice]
  /\ outbox (world_after
               (create crypt_env 3 alice_request (world_of [bob crypt_hash])))
     = [registered_alice]
  /\ get_by_email (email registered_alice)
       (world_after
          (create crypt_env 3 alice_request (world_of [bob crypt_hash])))
     = Done (Ok (Some registered_alice))
         (world_after
            (create crypt_env 3 alice_request (world_of [bob crypt_hash]))).
Proof.
  destruct (create_registers_account crypt_env 3 alice_request
              registered_alice (world_of [bob crypt_hash])
              (world_after
                 (create crypt_env 3 alice_request
                    (world_of [bob crypt_hash])))
              eq_refl table_ok_bob eq_refl)
    as [_ [_ [_ [_ [_ [_ [_ [_ [R [_ [O [_ [G _]]]]]]]]]]]]].
  split; [exact R|]. split; [exact O | exact G].
Defined.

Lemma create_outcome (env : Env) fuel user_data r w w' :
  pending (session w) = [] ->
  create env fuel user_data w = Done r w' ->
  (exists u, r = Ok (Some u))
  \/ (r = Ok None
      /\ rows (session w') = rows (session w)
      /\ writes (session w') = writes (session w)
      /\ outbox w' = outbox w
      /\ pending (session w') = [])
  \/ (r = Ok None
      /\ exists u e,
           send_email env u = Raise e
           /\ violates_unique u (rows (session w)) = false
           /\ rows (session w') = rows (session w) ++ [u]
           /\ writes (session w') = S (writes (session w))
           /\ outbox w' = outbox w
           /\ pending (session w') = []).
Proof.
  intros P C. pose proof (create_cases env fuel user_data w P) as K.
  destruct (UserCreate env user_data) as [vd|e].
  - destruct (hd_error _).
    + rewrite K in C. inversion C; subst. right. left. auto.
    + destruct K as [K|[[w1 [K [R [W [Q O]]]]]|[[u [w1 [K _]]]|
                        [u [w1 [e [K [M [_ [_ [_ [V [R [W [Q O]]]]]]]]]]]]]]];
        rewrite K in C; [discriminate| | |]; inversion C; subst.
      * right. left. auto.
      * left. eauto.
      * right. right. split; [reflexivity|]. exists u, e.
        repeat (split; [assumption|]). assumption.
  - rewrite K in C. inversion C; subst. right. left. auto.
Qed.

(** X8: [create] never lets an exception out.  When it returns without an
    account, one of two things has happened.  Either the schema rejected the
    data, the email was taken, or a validator of the entity or a constraint
    of the table refused the new account: then the table, the number of
    statements written and the emails sent are what they were.  Or the email
    service raised: that is after the commit, so the new account is the last
    row of the table, one INSERT was written and no email went out.  Either
    way nothing is left staged. *)
Theorem create_without_account_outcomes
  (env : Env) (fuel : nat) (user_data : list (string * pystr))
  (r : result (option User)) (w w' : World) :
  pending (session w) = [] ->
  create env fuel user_data w = Done r w' ->
  (exists o, r = Ok o)
  /\ (r = Ok None ->
      (rows (session w') = rows (session w)
       /\ writes (session w') = writes (session w)
       /\ outbox w' = outbox w
       /\ pending (session w') = [])
      \/ (exists u e,
             send_email env u = Raise e
             /\ rows (session w') = rows (session w) ++ [u]
             /\ writes (session w') = S (writes (session w))
             /\ outbox w' = outbox w
             /\ pending (session w') = []))
  /\ ((forall u, send_email env u = Ok tt) ->
      r = Ok None ->
      rows (session w') = rows (session w)
      /\ writes (session w') = writes (session w)
      /\ outbox w' = outbox w).
Proof.
  intros P C.
  destruct (create_outcome env fuel user_data r w w' P C)
    as [[u ->]|[[-> H]|[-> [u [e [M [_ H]]]]]]].
  - split; [eauto|]. split; discriminate.
  - split; [eauto|]. split; [auto|]. intros _ _. tauto.
  - split; [eauto|]. split.
    + intros _. right. exists u, e. auto.
    + intros S. rewrite S in M. discriminate.
Qed.

Lemma create_without_account_outcomes_witness :
  ((exists o, Ok (@None User) = Ok o)
   /\ rows (session (world_after
                       (create hex_env 3 alice_request
                          (world_of [bob hex_hash]))))
      = [bob hex_hash]
   /\ writes (session (world_after
                         (create hex_env 3 alice_request
                            (world_of [bob hex_hash])))) = 0%nat
   /\ outbox (world_after
                (create hex_env 3 alice_request (world_of [bob hex_hash])))
      = [])
  /\ (create offline_env 3 alice_request (world_of [bob crypt_hash])
      = Done (Ok None)
          (world_after
             (create offline_env 3 alice_request (world_of [bob crypt_hash])))
      /\ (rows (session (world_after
                           (create offline_env 3 alice_request
                              (world_of [bob crypt_hash]))))
          = [bob crypt_hash]
          \/ exists u e,
               send_email offline_env u = Raise e
               /\ rows (session (world_after
                                   (create offline_env 3 alice_request
                                      (world_of [bob crypt_hash]))))
                  = [bob crypt_hash] ++ [u])).
Proof.
  split.
  - destruct (create_without_account_outcomes hex_env 3 alice_request
                (Ok None) (world_of [bob hex_hash])
                (world_after
                   (create hex_env 3 alice_request (world_of [bob hex_hash])))
                eq_refl eq_refl) as [A [_ B]].
    split; [exact A|]. apply B; reflexivity.
  - split; [reflexivity|].
    destruct (create_without_account_outcomes offline_env 3 alice_request
                (Ok None) (world_of [bob crypt_hash])
                (world_after
                   (create offline_env 3 alice_request
                      (world_of [bob crypt_hash])))
                eq_refl eq_refl) as [_ [A _]].
    destruct (A eq_refl) as [[R _]|[u [e [M [R _]]]]].
    + left. exact R.
    + right. exists u, e. split; assumption.
Defined.

(** ** The constraints are kept *)

Lemma login_user_outcome (env : Env) email_ password w :
  pending (session w) = [] ->
  exists o w',
    login_user env email_ password w = Done (Ok o) w'
    /\ (w' = w
        \/ exists u R,
             In u (rows (session w))
             /\ id R = id u /\ nickname R = nickname u /\ email R = email u
             /\ w' = set_session
                       (mkSession (update_row R (rows (session w))) []
                          (S (writes (session w)))) w).
Proof.
  intros P.
  assert (G : get_by_email email_ w =
              Done (Ok (hd_error
                          (filter (fun r => pystr_eqb (email r) email_)
                             (rows (session w))))) w)
    by (unfold get_by_email; now rewrite fetch_clean).
  destruct (hd_error _) as [u|] eqn:H.
  - rewrite (login_user_found env email_ password u w G).
    apply first_in in H. destruct H as [I _].
    destruct (negb (email_verified u)); [eauto|].
    destruct (is_locked u); [eauto|].
    destruct (verify_password env password (hashed_password u)).
    + eexists. eexists. split; [reflexivity|]. right.
      exists u. eexists. split; [exact I|].
      split; [|split; [|split; [|reflexivity]]]; reflexivity.
    + eexists. eexists. split; [reflexivity|]. right.
      exists u. eexists. split; [exact I|].
      split; [|split; [|split; [|reflexivity]]];
        simpl; destruct (_ >=? _); reflexivity.
  - exists None, w. split; [|now left].
    unfold login_user. unfold bind at 1. now rewrite G.
Qed.

Lemma reset_password_outcome (env : Env) uid new_password w :
  pending (session w) = [] ->
  exists b w',
    reset_password env uid new_password w = Done (Ok b) w'
    /\ (w' = w
        \/ exists u R,
             In u (rows (session w))
             /\ id R = id u /\ nickname R = nickname u /\ email R = email u
             /\ w' = set_session
                       (mkSession (update_row R (rows (session w))) []
                          (S (writes (session w)))) w).
Proof.
  intros P.
  assert (G : get_by_id uid w =
              Done (Ok (hd_error
                          (filter (fun r => N.eqb (id r) uid)
                             (rows (session w))))) w)
    by (unfold get_by_id; now rewrite fetch_clean).
  destruct (hd_error _) as [u|] eqn:H.
  - rewrite (reset_password_found env uid new_password u w G).
    apply first_in in H. destruct H as [I _].
    destruct (validate_password _ _); [|eauto].
    eexists. eexists. split; [reflexivity|]. right.
    exists u. eexists. split; [exact I|].
    split; [|split; [|split; [|reflexivity]]]; reflexivity.
  - rewrite (reset_password_not_found env uid new_password w G). eauto.
Qed.

(** X9: [login_user], [reset_password], [delete] and [create] keep the
    table's constraints.  Started on a table where identifiers, nicknames and
    emails are unique and with nothing staged, each of them ends (whatever it
    returns) on such a table, with nothing staged. *)
Theorem service_keeps_constraints (env : Env) (w : World) :
  pending (session w) = [] ->
  table_ok (rows (session w)) ->
  (forall email_ password r w',
      login_user env email_ password w = Done r w' ->
      table_ok (rows (session w')) /\ pending (session w') = [])
  /\ (forall uid new_password r w',
         reset_password env uid new_password w = Done r w' ->
         table_ok (rows (session w')) /\ pending (session w') = [])
  /\ (forall uid r w',
         delete uid w = Done r w' ->
         table_ok (rows (session w')) /\ pending (session w') = [])
  /\ (forall fuel user_data r w',
         create env fuel user_data w = Done r w' ->
         table_ok (rows (session w')) /\ pending (session w') = []).
Proof.
  intros P T.
  assert (U : forall w' : World,
             (w' = w
              \/ exists u R,
                   In u (rows (session w))
                   /\ id R = id u /\ nickname R = nickname u
                   /\ email R = email u
                   /\ w' = set_session
                             (mkSession (update_row R (rows (session w))) []
                                (S (writes (session w)))) w) ->
             table_ok (rows (session w')) /\ pending (session w') = []).
  { intros w' [->|[u [R [I [Ei [En [Ee ->]]]]]]]; [auto|].
    simpl. split; [|reflexivity].
    now apply table_ok_update_row with (u := u). }
  split; [|split; [|split]].
  - intros email_ password r w' L.
    destruct (login_user_outcome env email_ password w P) as [o [w1 [L1 H]]].
    rewrite L1 in L. inversion L; subst. now apply U.
  - intros uid new_password r w' L.
    destruct (reset_password_outcome env uid new_password w P)
      as [o [w1 [L1 H]]].
    rewrite L1 in L. inversion L; subst. now apply U.
  - intros uid r w' D.
    assert (G : get_by_id uid w =
                Done (Ok (hd_error
                            (filter (fun r => N.eqb (id r) uid)
                               (rows (session w))))) w)
      by (unfold get_by_id; now rewrite fetch_clean).
    destruct (hd_error _) as [u|].
    + rewrite (delete_found uid u w G) in D. inversion D; subst. simpl.
      split; [now apply table_ok_delete_row | reflexivity].
    + unfold delete, try_except in D. unfold bind at 1 in D.
      rewrite G in D. inversion D; subst. auto.
  - intros fuel user_data r w' C.
    destruct (create_outcome env fuel user_data r w w' P C)
      as [[u ->]|[[_ [R [_ [_ Q]]]]|[_ [u [e [_ [V [R [_ [_ Q]]]]]]]]]].
    + destruct (create_success env fuel user_data u w w' P C)
        as [vd [k [_ [_ [_ [_ [_ [_ [V ->]]]]]]]]].
      simpl. split; [now apply table_ok_insert | reflexivity].
    + now rewrite R.
    + rewrite R. split; [now apply table_ok_insert | exact Q].
Qed.

Lemma service_keeps_constraints_witness :
  (table_ok (rows (session (world_after
       (login_user crypt_env (str "bob@example.com") (str "guess")
          (world_of [alice crypt_hash; bob crypt_hash])))))
   /\ pending (session (world_after
        (login_user crypt_env (str "bob@example.com") (str "guess")
           (world_of [alice crypt_hash; bob crypt_hash])))) = [])
  /\ (table_ok (rows (session (world_after
        (reset_password crypt_env 7%N (str "Fresh#2025")
           (world_of [alice crypt_hash; bob crypt_hash])))))
      /\ pending (session (world_after
           (reset_password crypt_env 7%N (str "Fresh#2025")
              (world_of [alice crypt_hash; bob crypt_hash])))) = [])
  /\ (table_ok (rows (session (world_after
        (delete 7%N (world_of [alice crypt_hash; bob crypt_hash])))))
      /\ pending (session (world_after
           (delete 7%N (world_of [alice crypt_hash; bob crypt_hash])))) = [])
  /\ (table_ok (rows (session (world_after
        (create crypt_env 3 alice_request (world_of [bob crypt_hash])))))
      /\ pending (session (world_after
           (create crypt_env 3 alice_request (world_of [bob crypt_hash]))))
         = []).
Proof.
  destruct (service_keeps_constraints crypt_env
              (world_of [alice crypt_hash; bob crypt_hash])
              eq_refl table_ok_two_accounts) as [L [R [D _]]].
  destruct (service_keeps_constraints crypt_env (world_of [bob crypt_hash])
              eq_refl table_ok_bob) as [_ [_ [_ C]]].
  split; [|split; [|split]].
  - apply (L (str "bob@example.com") (str "guess") (Ok None)). reflexivity.
  - apply (R 7%N (str "Fresh#2025") (Ok true)). reflexivity.
  - apply (D 7%N (Ok true)). reflexivity.
  - apply (C 3%nat alice_request (Ok (Some registered_alice))). reflexivity.
Defined.

(** ** From registration to the first login *)

(** X10: a freshly registered account cannot log in, even with the password
    it was registered with, and such an attempt changes nothing; once
    [verify_email] has been applied and stored, the same login returns the
    account, with the counter at 0 and [last_login_at] at the time of that
    login (the hasher verifying its own output). *)
Theorem login_needs_verified_email
  (env : Env) (fuel : nat) (user_data : list (string * pystr))
  (vd : validated_data) (u : User) (w w1 : World) :
  pending (session w) = [] ->
  table_ok (rows (session w)) ->
  UserCreate env user_data = Ok vd ->
  create env fuel user_data w = Done (Ok (Some u)) w1 ->
  verify_password env (vd_password vd) (hash_password env (vd_password vd))
  = true ->
  login_user env (vd_email vd) (vd_password vd) w1 = Done (Ok None) w1
  /\ exists w2 w3 u3,
       persist (verify_email u) w1 = Done (Ok tt) w2
       /\ login_user env (vd_email vd) (vd_password vd) w2
          = Done (Ok (Some u3)) w3
       /\ id u3 = id u
       /\ email_verified u3 = true
       /\ failed_login_attempts u3 = 0
       /\ last_login_at u3 = SqlTime (clock w2).
Proof.
  intros P T U C H.
  destruct (create_success env fuel user_data u w w1 P C)
    as [vd' [k [U' [_ [E [_ [_ [_ [V W]]]]]]]]].
  rewrite U in U'. inversion U'; subst vd'; clear U'.
  assert (F : email u = vd_email vd
              /\ hashed_password u = hash_password env (vd_password vd)
              /\ email_verified u = false /\ is_locked u = false)
    by (rewrite E; simpl; auto).
  destruct F as [F1 [F2 [F3 F4]]].
  assert (G : get_by_email (vd_email vd) w1 = Done (Ok (Some u)) w1).
  { destruct (table_ok_insert u _ T V) as [_ [_ Ne]].
    subst w1. unfold get_by_email. rewrite fetch_clean by reflexivity.
    simpl rows. rewrite <- F1.
    rewrite (first_unique email _ _ u Ne)
      by (try (apply in_or_app; right; now left);
          intros r; apply pystr_eqb_eq).
    reflexivity. }
  split.
  - rewrite (login_user_found env _ _ u w1 G), F3. reflexivity.
  - destruct (persist_found (vd_email vd) u (verify_email u) w1 G
                eq_refl eq_refl) as [w2 [P2 [G2 [_ K2]]]].
    exists w2. rewrite (login_user_found env _ _ _ w2 G2).
    simpl. rewrite F4, F2, H. simpl.
    eexists. eexists. split; [exact P2|]. split; [reflexivity|].
    simpl. repeat split.
Qed.

Lemma login_needs_verified_email_witness :
  login_user crypt_env (str "alice@example.com") alice_password
    (world_after (create crypt_env 3 alice_request (world_of [bob crypt_hash])))
  = Done (Ok None)
      (world_after
         (create crypt_env 3 alice_request (world_of [bob crypt_hash])))
  /\ exists w2 w3 u3,
       persist (verify_email registered_alice)
         (world_after
            (create crypt_env 3 alice_request (world_of [bob crypt_hash])))
       = Done (Ok tt) w2
       /\ login_user crypt_env (str "alice@example.com") alice_password w2
          = Done (Ok (Some u3)) w3
       /\ id u3 = 1000%N
       /\ email_verified u3 = true
       /\ failed_login_attempts u3 = 0
       /\ last_login_at u3 = SqlTime (clock w2).
Proof.
  apply (login_needs_verified_email crypt_env 3 alice_request
           (mkValidated (str "alice@example.com") alice_password)
           registered_alice (world_of [bob crypt_hash])
           (world_after
              (create crypt_env 3 alice_request (world_of [bob crypt_hash])))
           eq_refl table_ok_bob eq_refl eq_refl eq_refl).
Defined.

(** ** The nickname loop *)

Lemma first_none_iff (g : User -> bool) table :
  hd_error (filter g table) = None <-> existsb g table = false.
Proof.
  induction table as [|x t IH]; simpl; [tauto|].
  destruct (g x); simpl; [split; discriminate | exact IH].
Qed.

Lemma unique_nickname_step (env : Env) fuel first w :
  pending (session w) = [] ->
  unique_nickname env (S fuel) first w =
  if nickname_taken (rows (session w)) first then
    unique_nickname env fuel (generate_nickname env (nickname_calls w))
      (mkWorld (session w) (clock w) (S (nickname_calls w)) (token_calls w)
         (uuid_calls w) (outbox w))
  else Done (Ok first) w.
Proof.
  intros P. simpl. unfold bind at 1. unfold get_by_nickname.
  rewrite fetch_clean by exact P. unfold nickname_taken.
  destruct (hd_error _) eqn:H.
  - destruct (existsb _ _) eqn:X.
    + reflexivity.
    + apply first_none_iff in X. congruence.
  - apply first_none_iff in H. rewrite H. reflexivity.
Qed.

Lemma candidate_shift (env : Env) first c j :
  candidate env (generate_nickname env c) (S c) j
  = candidate env first c (S j).
Proof.
  destruct j as [|j]; simpl.
  - now rewrite Nat.add_0_r.
  - now rewrite Nat.add_succ_r.
Qed.

(** X11: the nickname loop of [create] returns the first candidate that no
    stored account holds, having asked the generator once for every taken
    candidate before it and touched nothing else; and while every candidate
    so far was taken, it is still running. *)
Theorem nickname_loop_returns_first_free (env : Env) (k : nat) :
  forall (first : pystr) (fuel : nat) (w : World),
  pending (session w) = [] ->
  (forall j, (j < k)%nat ->
     nickname_taken (rows (session w))
       (candidate env first (nickname_calls w) j) = true) ->
  (nickname_taken (rows (session w))
     (candidate env first (nickname_calls w) k) = false ->
   (k < fuel)%nat ->
   unique_nickname env fuel first w =
   Done (Ok (candidate env first (nickname_calls w) k))
     (mkWorld (session w) (clock w) (nickname_calls w + k) (token_calls w)
        (uuid_calls w) (outbox w)))
  /\ ((fuel <= k)%nat -> unique_nickname env fuel first w = OutOfFuel).
Proof.
  induction k as [|k IH]; intros first fuel w P T.
  - split.
    + intros F L. destruct fuel as [|fuel]; [lia|].
      rewrite unique_nickname_step by exact P. simpl in F. rewrite F.
      rewrite Nat.add_0_r. destruct w; reflexivity.
    + intros L. assert (fuel = 0%nat) by lia. now subst.
  - destruct fuel as [|fuel]; [split; [lia | reflexivity]|].
    rewrite unique_nickname_step by exact P.
    assert (T0 : nickname_taken (rows (session w)) first = true)
      by (apply (T 0%nat); lia).
    rewrite T0.
    match goal with
    | |- context [unique_nickname env fuel ?m ?w1] =>
        destruct (IH m fuel w1 P) as [A B]
    end.
    { intros j J. simpl session. simpl nickname_calls.
      rewrite (candidate_shift env first). apply T. lia. }
    simpl session in A. simpl nickname_calls in A.
    rewrite (candidate_shift env first) in A.
    split.
    + intros F L. rewrite A by (auto; lia). simpl.
      now rewrite Nat.add_succ_r.
    + intros L. apply B. lia.
Qed.

Lemma nickname_loop_returns_first_free_witness :
  unique_nickname crypt_env 3 (str "bob02") (world_of [bob crypt_hash])
  = Done (Ok (str "guest"))
      (mkWorld (mkSession [bob crypt_hash] [] 0) 1000 1 0 0 [])
  /\ unique_nickname crypt_env 1 (str "bob02") (world_of [bob crypt_hash])
     = OutOfFuel.
Proof.
  split.
  - apply (proj1 (nickname_loop_returns_first_free crypt_env 1 (str "bob02")
                    3 (world_of [bob crypt_hash]) eq_refl
                    (fun j J =>
                       match j as n
                         return (n < 1)%nat ->
                                nickname_taken [bob crypt_hash]
                                  (candidate crypt_env (str "bob02") 0 n)
                                = true
                       with
                       | O => fun _ => eq_refl
                       | S n => fun L => ltac:(lia)
                       end J)));
      [reflexivity | lia].
  - apply (proj2 (nickname_loop_returns_first_free crypt_env 1 (str "bob02")
                    1 (world_of [bob crypt_hash]) eq_refl
                    (fun j J =>
                       match j as n
                         return (n < 1)%nat ->
                                nickname_taken [bob crypt_hash]
                                  (candidate crypt_env (str "bob02") 0 n)
                                = true
                       with
                       | O => fun _ => eq_refl
                       | S n => fun L => ltac:(lia)
                       end J))).
    lia.
Defined.

(** ** When the store refuses *)

Lemma flush_ops_raises t ops : forall table n e,
  flush_ops t ops table n = Raise e -> e = SQLAlchemyError.
Proof.
  induction ops as [|op ops IH]; simpl; intros table n e H; [discriminate|].
  destruct op as [u|u|u]; simpl in H; eauto.
  destruct (violates_unique u table); simpl in H; [now inversion H | eauto].
Qed.

Lemma flush_raises e w w1 :
  session_flush w = Done (Raise e) w1 ->
  e = SQLAlchemyError /\ pending (session w1) = [].
Proof.
  intros F. split; [|exact (flush_pending _ _ _ F)].
  unfold session_flush in F.
  destruct (flush_ops _ _ _ _) as [[table n]|x] eqn:X; inversion F; subst.
  eapply flush_ops_raises; eauto.
Qed.

Lemma execute_query_failed {A} (q : list User -> A) e w w1 :
  session_flush w = Done (Raise e) w1 ->
  _execute_query q w = Done (Raise e) w1.
Proof.
  intros F. destruct (flush_raises e w w1 F) as [-> P].
  unfold _execute_query, try_except, session_execute. unfold bind at 1.
  unfold bind at 1. rewrite F.
  unfold bind, session_rollback, raise. now rewrite set_session_same.
Qed.

Lemma fetch_failed f e w w1 :
  session_flush w = Done (Raise e) w1 ->
  _fetch_user f w = Done (Raise e) w1.
Proof.
  intros F. unfold _fetch_user, bind.
  now rewrite (execute_query_failed (filter f) e w w1 F).
Qed.

(** X12: when the store refuses what the session has staged, the lookup that
    opens each operation fails after rolling back.  [login_user] and
    [list_users] let that error out; [delete] and [reset_password] answer
    [False] and [create] answers [None]; in every case the table is as it
    was and nothing is left staged. *)
Theorem storage_error_outcomes (env : Env) (e : exn) (w w1 : World) :
  session_flush w = Done (Raise e) w1 ->
  (forall email_ password,
      login_user env email_ password w = Done (Raise e) w1)
  /\ (forall skip limit, list_users skip limit w = Done (Raise e) w1)
  /\ (forall uid, delete uid w = Done (Ok false) w1)
  /\ (forall uid new_password,
         reset_password env uid new_password w = Done (Ok false) w1)
  /\ (forall fuel user_data vd,
         UserCreate env user_data = Ok vd ->
         create env fuel user_data w = Done (Ok None) w1)
  /\ rows (session w1) = rows (session w)
  /\ pending (session w1) = [].
Proof.
  intros F. repeat split.
  - intros. unfold login_user, get_by_email. unfold bind.
    now rewrite (fetch_failed _ e w w1 F).
  - intros. unfold list_users. now apply execute_query_failed.
  - intros. unfold delete, try_except, get_by_id. unfold bind.
    now rewrite (fetch_failed _ e w w1 F).
  - intros. unfold reset_password, try_except, get_by_id. unfold bind.
    now rewrite (fetch_failed _ e w w1 F).
  - intros fuel user_data vd U. unfold create, try_except.
    unfold bind at 1. rewrite U. unfold lift.
    unfold bind at 1. unfold get_by_email.
    now rewrite (fetch_failed _ e w w1 F).
  - unfold session_flush in F.
    destruct (flush_ops _ _ _ _) as [[table n]|x]; inversion F; reflexivity.
  - exact (flush_pending _ _ _ F).
Qed.

Lemma storage_error_outcomes_witness :
  login_user crypt_env (str "alice@example.com") alice_password
    staged_duplicate
  = Done (Raise SQLAlchemyError) (world_of [alice crypt_hash])
  /\ delete 7%N staged_duplicate = Done (Ok false) (world_of [alice crypt_hash])
  /\ reset_password crypt_env 7%N (str "Fresh#2025") staged_duplicate
     = Done (Ok false) (world_of [alice crypt_hash]).
Proof.
  destruct (storage_error_outcomes crypt_env SQLAlchemyError staged_duplicate
              (world_of [alice crypt_hash]) eq_refl)
    as [L [_ [D [R _]]]].
  split; [apply L|]. split; [apply D | apply R].
Defined.

(** ** Listing *)



(** ** Update *)

Lemma execute_update_clean uid v w :
  pending (session w) = [] ->
  _execute_statement (update_statement uid v) w =
  match update_statement uid v (session w) with
  | Ok (_, s) => Done (Ok tt) (set_session s w)
  | Raise e => Done (Raise e) w
  end.
Proof.
  intros P.
  unfold _execute_statement, try_except, session_execute_statement.
  unfold bind at 1. unfold bind at 1. rewrite (flush_clean w P).
  destruct (update_statement uid v (session w)) as [[[] s]|e] eqn:U.
  - assert (Ps : pending s = []).
    { revert U. unfold update_statement, bind_result.
      destruct (fit_values v); [|discriminate].
      destruct (existsb _ _).
      - destruct (conflicts _ _ _); [discriminate|].
        intros U. inversion U. exact P.
      - intros U. inversion U. exact P. }
    unfold bind, session_commit, ret.
    rewrite flush_clean by exact Ps. reflexivity.
  - unfold session_rollback, raise, bind.
    destruct e; try reflexivity. now rewrite set_session_same.
Qed.

Lemma update_statement_pending uid v s u s' :
  update_statement uid v s = Ok (u, s') -> pending s' = pending s.
Proof.
  unfold update_statement, bind_result.
  destruct (fit_values v); [|discriminate].
  destruct (existsb _ _).
  - destruct (conflicts _ _ _); [discriminate|].
    intros U. now inversion U.
  - intros U. now inversion U.
Qed.

(** What [update] does on a session with nothing staged. *)
Lemma update_run (env : Env) UserUpdate uid update_data w :
  pending (session w) = [] ->
  update env UserUpdate uid update_data w =
  match UserUpdate update_data with
  | Raise _ => Done (Ok None) w
  | Ok f =>
      match update_statement uid
              (mkValues (uf_email f) (uf_nickname f)
                 (option_map (hash_password env) (uf_password f)))
              (session w) with
      | Raise _ => Done (Ok None) w
      | Ok (_, s) =>
          Done (Ok (hd_error (filter (fun r => N.eqb (id r) uid) (rows s))))
            (set_session s w)
      end
  end.
Proof.
  intros P. unfold update, try_except. unfold bind at 1. unfold lift.
  destruct (UserUpdate update_data) as [f|e]; [|reflexivity].
  unfold bind at 1. rewrite execute_update_clean by exact P.
  destruct (update_statement _ _ _) as [[[] s]|e] eqn:U; [|reflexivity].
  apply update_statement_pending in U.
  unfold bind, get_by_id. rewrite fetch_clean by (simpl; congruence).
  simpl. unfold ret. now destruct (hd_error _).
Qed.

Lemma existsb_id_found uid (u : User) table :
  hd_error (filter (fun r => N.eqb (id r) uid) table) = Some u ->
  existsb (fun r => N.eqb (id r) uid) table = true.
Proof.
  intros H. destruct (existsb _ table) eqn:E; [reflexivity|].
  apply first_none_iff in E. congruence.
Qed.


Lemma id_apply_values v r : id (apply_values v r) = id r.
Proof.
  unfold apply_values, set_if.
  destruct (cv_hashed_password v), (cv_nickname v), (cv_email v);
    reflexivity.
Qed.



Lemma fit_values_ok v v' :
  fit_values v = Ok v' ->
  fit_column 255 (cv_email v) = Ok (cv_email v')
  /\ fit_column 50 (cv_nickname v) = Ok (cv_nickname v')
  /\ fit_column 255 (cv_hashed_password v) = Ok (cv_hashed_password v').
Proof.
  unfold fit_values, bind_result.
  destruct (fit_column 255 (cv_email v)); [|discriminate].
  destruct (fit_column 50 (cv_nickname v)); [|discriminate].
  destruct (fit_column 255 (cv_hashed_password v)); [|discriminate].
  intros H. inversion H. auto.
Qed.

Lemma fit_column_short n s :
  (List.length s <= n)%nat -> fit_column n (Some s) = Ok (Some s).
Proof.
  intros L. unfold fit_column, varchar, bind_result.
  apply Nat.leb_le in L. now rewrite L.
Qed.



(** X16: [update] that would give an account the email or the nickname of
    another stored account returns [None], and the world is as it was: the
    store refuses the statement and nothing of it is kept. *)
Theorem update_refuses_taken_value
  (env : Env) (UserUpdate : list (string * pystr) -> result update_fields)
  (uid : UUID) (update_data : list (string * pystr))
  (f : update_fields) (u r : User) (w : World) :
  get_by_id uid w = Done (Ok (Some u)) w ->
  UserUpdate update_data = Ok f ->
  In r (rows (session w)) ->
  id r <> uid ->
  (uf_email f = Some (email r) /\ (List.length (email r) <= 255)%nat)
  \/ (uf_nickname f = Some (nickname r)
      /\ (List.length (nickname r) <= 50)%nat) ->
  update env UserUpdate uid update_data w = Done (Ok None) w.
Proof.
  intros G U I N H. apply fetch_fixed in G. destruct G as [P G].
  symmetry in G.
  rewrite update_run by exact P. rewrite U.
  unfold update_statement.
  destruct (fit_values _) as [v'|e] eqn:F; [|reflexivity].
  unfold bind_result. rewrite (existsb_id_found uid u _ G).
  assert (C : conflicts uid v' (rows (session w)) = true).
  { apply fit_values_ok in F.
    cbn [cv_email cv_nickname cv_hashed_password] in F.
    destruct F as [Fe [Fn _]].
    unfold conflicts. apply existsb_exists. exists r. split; [exact I|].
    apply andb_true_iff. split.
    - apply negb_true_iff. now apply N.eqb_neq.
    - apply orb_true_iff. destruct H as [[E L]|[E L]].
      + left. rewrite E in Fe.
        pose proof (eq_trans (eq_sym Fe) (fit_column_short 255 _ L)) as Q.
        inversion Q as [Q']. unfold holds. rewrite Q'.
        apply pystr_eqb_refl.
      + right. rewrite E in Fn.
        pose proof (eq_trans (eq_sym Fn) (fit_column_short 50 _ L)) as Q.
        inversion Q as [Q']. unfold holds. rewrite Q'.
        apply pystr_eqb_refl. }
  now rewrite C.
Qed.

Lemma update_refuses_taken_value_witness :
  update crypt_env sample_UserUpdate 7%N
    [("email"%string, str "bob@example.com")]
    (world_of [alice crypt_hash; bob crypt_hash])
  = Done (Ok None) (world_of [alice crypt_hash; bob crypt_hash]).
Proof.
  apply (update_refuses_taken_value crypt_env sample_UserUpdate 7%N
           [("email"%string, str "bob@example.com")]
           (mkUpdateFields (Some (str "bob@example.com")) None None)
           (alice crypt_hash) (bob crypt_hash)
           (world_of [alice crypt_hash; bob crypt_hash]));
    [reflexivity | reflexivity | simpl; auto | discriminate
    | left; split; [reflexivity | simpl; lia]].
Defined.

Lemma conflicts_false uid v table :
  conflicts uid v table = false ->
  forall r, In r table -> id r <> uid ->
            holds email (cv_email v) r = false
            /\ holds nickname (cv_nickname v) r = false.
Proof.
  unfold conflicts. intros C r I N.
  destruct (holds email (cv_email v) r || holds nickname (cv_nickname v) r)
    eqn:H; [|now apply orb_false_iff in H].
  assert (X : existsb (fun r => negb (N.eqb (id r) uid)
                                && (holds email (cv_email v) r
                                    || holds nickname (cv_nickname v) r))
                table = true).
  { apply existsb_exists. exists r. split; [exact I|].
    rewrite H. apply N.eqb_neq in N. now rewrite N. }
  congruence.
Qed.

Lemma NoDup_map_update_column (f : User -> pystr) new g uid table :
  NoDup (map id table) ->
  NoDup (map f table) ->
  (forall r, f (g r) = match new with Some s => s | None => f r end) ->
  (forall r, In r table -> id r <> uid -> holds f new r = false) ->
  NoDup (map f (map (fun r => if N.eqb (id r) uid then g r else r) table)).
Proof.
  intros Ni Nf G H. destruct new as [s|].
  2:{ rewrite map_map.
      rewrite (map_ext (fun r => f (if N.eqb (id r) uid then g r else r)) f);
        [exact Nf|].
      intros r. destruct (N.eqb (id r) uid); [apply G | reflexivity]. }
  assert (K : forall r, In r table -> id r <> uid -> f r <> s).
  { intros r I N E. specialize (H r I N). unfold holds in H.
    rewrite E, pystr_eqb_refl in H. discriminate. }
  clear H. induction table as [|x t IH]; simpl; [constructor|].
  inversion Ni as [|? ? Xi Ni']; subst. inversion Nf as [|? ? Xf Nf']; subst.
  destruct (N.eqb (id x) uid) eqn:E.
  - apply N.eqb_eq in E.
    assert (T : forall r, In r t -> id r <> uid).
    { intros r I Q. apply Xi. rewrite E, <- Q. now apply in_map. }
    rewrite (map_ext_in (fun r => if N.eqb (id r) uid then g r else r)
               (fun r => r)).
    2:{ intros r I. apply T in I. apply N.eqb_neq in I. now rewrite I. }
    rewrite map_id. constructor; [|exact Nf'].
    rewrite G. intros I. apply in_map_iff in I. destruct I as [r [Q I]].
    apply (K r); [now right | now apply T | exact Q].
  - apply N.eqb_neq in E. constructor.
    + intros I. apply in_map_iff in I. destruct I as [y [Q I]].
      apply in_map_iff in I. destruct I as [r [R I]]. subst y.
      destruct (N.eqb (id r) uid) eqn:D.
      * rewrite G in Q. apply (K x); [now left | exact E | now symmetry].
      * apply Xf. rewrite <- Q. now apply in_map.
    + apply IH; auto. intros r I. apply K. now right.
Qed.

Lemma email_apply_values v r :
  email (apply_values v r)
  = match cv_email v with Some s => s | None => email r end.
Proof.
  unfold apply_values, set_if.
  destruct (cv_hashed_password v), (cv_nickname v), (cv_email v);
    reflexivity.
Qed.

Lemma nickname_apply_values v r :
  nickname (apply_values v r)
  = match cv_nickname v with Some s => s | None => nickname r end.
Proof.
  unfold apply_values, set_if.
  destruct (cv_hashed_password v), (cv_nickname v), (cv_email v);
    reflexivity.
Qed.

(** X17: [update] keeps the table's constraints too: from a table where
    identifiers, nicknames and emails are unique and with nothing staged, it
    ends, whatever it returns, on such a table with nothing staged. *)
Theorem update_keeps_constraints
  (env : Env) (UserUpdate : list (string * pystr) -> result update_fields)
  (uid : UUID) (update_data : list (string * pystr))
  (r : result (option User)) (w w' : World) :
  pending (session w) = [] ->
  table_ok (rows (session w)) ->
  update env UserUpdate uid update_data w = Done r w' ->
  table_ok (rows (session w')) /\ pending (session w') = [].
Proof.
  intros P T R. rewrite update_run in R by exact P.
  destruct (UserUpdate update_data) as [f|e];
    [|inversion R; subst; auto].
  unfold update_statement, bind_result in R.
  destruct (fit_values _) as [v|e]; [|inversion R; subst; auto].
  destruct (existsb _ _).
  - destruct (conflicts uid v (rows (session w))) eqn:C;
      [inversion R; subst; auto|].
    inversion R; subst; clear R. simpl. split; [|exact P].
    destruct T as [Ni [Nn Ne]].
    pose proof (conflicts_false uid v _ C) as K.
    unfold table_ok. repeat split.
    + rewrite map_map.
      rewrite (map_ext
                 (fun x => id (if N.eqb (id x) uid then apply_values v x
                               else x)) id); [exact Ni|].
      intros x. destruct (N.eqb (id x) uid);
        [apply id_apply_values | reflexivity].
    + apply NoDup_map_update_column with (new := cv_nickname v); auto.
      * apply nickname_apply_values.
      * intros x I N. now apply K.
    + apply NoDup_map_update_column with (new := cv_email v); auto.
      * apply email_apply_values.
      * intros x I N. now apply K.
  - inversion R; subst. simpl. auto.
Qed.

Lemma update_keeps_constraints_witness :
  table_ok (rows (session (world_after
     (update crypt_env sample_UserUpdate 7%N
        [("email"%string, str "alice@example.org")]
        (world_of [alice crypt_hash; bob crypt_hash])))))
  /\ pending (session (world_after
       (update crypt_env sample_UserUpdate 7%N
          [("email"%string, str "alice@example.org")]
          (world_of [alice crypt_hash; bob crypt_hash])))) = [].
Proof.
  apply (update_keeps_constraints crypt_env sample_UserUpdate 7%N
           [("email"%string, str "alice@example.org")]
           (Ok (Some (set_email (str "alice@example.org") (alice crypt_hash))))
           (world_of [alice crypt_hash; bob crypt_hash])
           (world_after
              (update crypt_env sample_UserUpdate 7%N
                 [("email"%string, str "alice@example.org")]
                 (world_of [alice crypt_hash; bob crypt_hash])))
           eq_refl table_ok_two_accounts eq_refl).
Defined.

(** ** Deleting, locking and unlocking *)

Lemma filter_keeps_other {B} (f : User -> B) u table :
  NoDup (map f table) ->
  In u table ->
  forall r, In r (delete_row u table) -> id r <> id u /\ f r <> f u.
Proof.
  intros N I r Ir. unfold delete_row in Ir. apply filter_In in Ir.
  destruct Ir as [Ir D]. apply negb_true_iff, N.eqb_neq in D.
  split; [exact D|]. intros E. apply D.
  now rewrite (NoDup_map_eq f table r u N Ir I E).
Qed.

(** X18: under the table's constraints, [delete] of a stored account returns
    [True] and frees what the account held: afterwards neither its
    identifier nor its email nor its nickname resolves to an account, while
    every other stored account is still found by its identifier. *)
Theorem delete_frees_email_and_nickname (u : User) (w : World) :
  pending (session w) = [] ->
  table_ok (rows (session w)) ->
  In u (rows (session w)) ->
  exists w',
    delete (id u) w = Done (Ok true) w'
    /\ get_by_id (id u) w' = Done (Ok None) w'
    /\ get_by_email (email u) w' = Done (Ok None) w'
    /\ get_by_nickname (nickname u) w' = Done (Ok None) w'
    /\ (forall r, In r (rows (session w)) -> id r <> id u ->
                  get_by_id (id r) w' = Done (Ok (Some r)) w').
Proof.
  intros P T I. pose proof T as [Ni [Nn Ne]].
  assert (G : get_by_id (id u) w = Done (Ok (Some u)) w).
  { unfold get_by_id. rewrite fetch_clean by exact P.
    now rewrite (first_unique id _ _ u Ni I) by (intros r; apply N.eqb_eq). }
  rewrite (delete_found (id u) u w G).
  eexists. split; [reflexivity|].
  unfold get_by_id, get_by_email, get_by_nickname.
  rewrite !fetch_clean by reflexivity. simpl rows.
  split; [|split; [|split]].
  - rewrite first_absent; [reflexivity|]. intros r Ir.
    apply (filter_keeps_other id u _ Ni I) in Ir. now apply N.eqb_neq.
  - rewrite first_absent; [reflexivity|]. intros r Ir.
    apply (filter_keeps_other email u _ Ne I) in Ir. destruct Ir as [_ Ir].
    destruct (pystr_eqb (email r) (email u)) eqn:E; [|reflexivity].
    apply pystr_eqb_eq in E. contradiction.
  - rewrite first_absent; [reflexivity|]. intros r Ir.
    apply (filter_keeps_other nickname u _ Nn I) in Ir.
    destruct Ir as [_ Ir].
    destruct (pystr_eqb (nickname r) (nickname u)) eqn:E; [|reflexivity].
    apply pystr_eqb_eq in E. contradiction.
  - intros r Ir D. rewrite !fetch_clean by reflexivity. simpl rows.
    destruct (table_ok_delete_row u _ T) as [Ni' _].
    assert (Ir' : In r (delete_row u (rows (session w)))).
    { unfold delete_row. apply filter_In. split; [exact Ir|].
      apply negb_true_iff. now apply N.eqb_neq. }
    rewrite (first_unique id _ _ r Ni' Ir') by (intros x; apply N.eqb_eq).
    reflexivity.
Qed.

Lemma delete_frees_email_and_nickname_witness :
  exists w',
    delete 7%N (world_of [alice crypt_hash; bob crypt_hash])
    = Done (Ok true) w'
    /\ get_by_email (str "alice@example.com") w' = Done (Ok None) w'
    /\ get_by_nickname (str "alice01") w' = Done (Ok None) w'
    /\ get_by_id 8%N w' = Done (Ok (Some (bob crypt_hash))) w'.
Proof.
  destruct (delete_frees_email_and_nickname (alice crypt_hash)
              (world_of [alice crypt_hash; bob crypt_hash])
              eq_refl table_ok_two_accounts (or_introl eq_refl))
    as [w' [H1 [_ [H3 [H4 H5]]]]].
  exists w'. split; [exact H1|]. split; [exact H3|]. split; [exact H4|].
  apply (H5 (bob crypt_hash)); [simpl; auto | discriminate].
Defined.

(** X19: [lock_account] and [unlock_account], once stored, switch login off
    and on again.  For a verified account and a password that verifies: after
    the lock is stored, [login_user] returns no account and changes nothing;
    after the unlock is stored, it returns the account with the counter at
    0. *)
Theorem lock_and_unlock_gate_login
  (env : Env) (email_ password : pystr) (u : User) (w : World) :
  get_by_email email_ w = Done (Ok (Some u)) w ->
  email_verified u = true ->
  verify_password env password (hashed_password u) = true ->
  exists w1 w2 w3 u1 u3,
    persist (lock_account u) w = Done (Ok tt) w1
    /\ login_user env email_ password w1 = Done (Ok None) w1
    /\ get_by_email email_ w1 = Done (Ok (Some u1)) w1
    /\ persist (unlock_account u1) w1 = Done (Ok tt) w2
    /\ login_user env email_ password w2 = Done (Ok (Some u3)) w3
    /\ id u3 = id u
    /\ is_locked u3 = false
    /\ failed_login_attempts u3 = 0.
Proof.
  intros G V H.
  destruct (persist_found email_ u (lock_account u) w G eq_refl eq_refl)
    as [w1 [P1 [G1 _]]].
  destruct (persist_found email_ _
              (unlock_account (resolve (clock w) (lock_account u))) w1 G1
              eq_refl eq_refl) as [w2 [P2 [G2 _]]].
  exists w1, w2.
  rewrite (login_user_found env email_ password _ w1 G1).
  rewrite (login_user_found env email_ password _ w2 G2).
  simpl. rewrite V, H. simpl.
  eexists. eexists. eexists.
  split; [exact P1|]. split; [reflexivity|]. split; [exact G1|].
  split; [exact P2|]. split; [reflexivity|]. repeat split.
Qed.

Lemma lock_and_unlock_gate_login_witness :
  exists w1 w2 w3 u1 u3,
    persist (lock_account (bob crypt_hash))
      (world_of [alice crypt_hash; bob crypt_hash]) = Done (Ok tt) w1
    /\ login_user crypt_env (str "bob@example.com") (str "Hunter#42") w1
       = Done (Ok None) w1
    /\ get_by_email (str "bob@example.com") w1 = Done (Ok (Some u1)) w1
    /\ persist (unlock_account u1) w1 = Done (Ok tt) w2
    /\ login_user crypt_env (str "bob@example.com") (str "Hunter#42") w2
       = Done (Ok (Some u3)) w3
    /\ id u3 = 8%N
    /\ is_locked u3 = false
    /\ failed_login_attempts u3 = 0.
Proof.
  apply (lock_and_unlock_gate_login crypt_env (str "bob@example.com")
           (str "Hunter#42") (bob crypt_hash)
           (world_of [alice crypt_hash; bob crypt_hash]));
    reflexivity.
Defined.

(** ** A successful login *)

(** X20: [login_user] with the email of a verified, unlocked account and a
    password that verifies returns the account with
    [failed_login_attempts = 0] and [last_login_at] at the current time,
    whatever the counter was, and that is what the store holds afterwards;
    identifier, email, nickname, password hash and lock are as before. *)
Theorem login_success_clears_counter
  (env : Env) (email_ password : pystr) (u : User) (w : World) :
  get_by_email email_ w = Done (Ok (Some u)) w ->
  email_verified u = true ->
  is_locked u = false ->
  verify_password env password (hashed_password u) = true ->
  exists w' u' stored,
    login_user env email_ password w = Done (Ok (Some u')) w'
    /\ failed_login_attempts u' = 0
    /\ last_login_at u' = SqlTime (clock w)
    /\ get_by_email email_ w' = Done (Ok (Some stored)) w'
    /\ failed_login_attempts stored = 0
    /\ last_login_at stored = SqlTime (clock w)
    /\ id stored = id u /\ email stored = email u
    /\ nickname stored = nickname u
    /\ hashed_password stored = hashed_password u
    /\ is_locked stored = false
    /\ rows (session w') = update_row stored (rows (session w))
    /\ pending (session w') = [].
Proof.
  intros G V L W.
  rewrite (login_user_found env email_ password u w G), V, L, W. simpl.
  eexists. eexists. eexists. split; [reflexivity|].
  split; [reflexivity|]. split; [reflexivity|].
  split; [apply get_by_email_after_update with (u := u); auto|].
  simpl. repeat split. exact L.
Qed.

Lemma login_success_clears_counter_witness :
  exists w' u' stored,
    login_user crypt_env (str "alice@example.com") alice_password
      (world_of [set_failed_login_attempts 3
                   (verify_email (alice crypt_hash))])
    = Done (Ok (Some u')) w'
    /\ failed_login_attempts u' = 0
    /\ last_login_at u' = SqlTime 1000
    /\ get_by_email (str "alice@example.com") w'
       = Done (Ok (Some stored)) w'
    /\ failed_login_attempts stored = 0.
Proof.
  destruct (login_success_clears_counter crypt_env
              (str "alice@example.com") alice_password
              (set_failed_login_attempts 3 (verify_email (alice crypt_hash)))
              (world_of [set_failed_login_attempts 3
                           (verify_email (alice crypt_hash))])
              eq_refl eq_refl eq_refl eq_refl)
    as [w' [u' [stored [H1 [H2 [H3 [H4 [H5 _]]]]]]]].
  exists w', u', stored. repeat split; assumption.
Defined.
